(** * buy-assistant: the category-resolution and carousel-assembly pipeline

    A shallow embedding of [BuyAssistant.chat] (src/buy_assistant.py) and
    the properties of its six steps.

    The external collaborators (language model and output parser, Chroma
    vector store, MercadoLibre search API) are oracles gathered in a
    [World]; every call to one of them, and every [logging] call, is
    recorded in a trace, and a Python exception is an [Err] result that
    stops the computation unless an [except] clause catches it. *)

From Stdlib Require Import Ascii String ZArith Floats.PrimFloat.
From stdpp Require Import base list strings.

Open Scope string_scope.
Open Scope list_scope.

(** ** Python strings *)

Module PyStr.

(** The line feed, Python's ["\n"]. *)
Definition LF : ascii := "010"%char.

(** [s.split(sep)] for a one-character separator: the pieces between the
    occurrences of [sep]; never the empty list. *)
Fixpoint split (sep : ascii) (s : string) : list string :=
  match s with
  | EmptyString => [EmptyString]
  | String c s' =>
      if Ascii.eqb c sep then EmptyString :: split sep s'
      else match split sep s' with
           | piece :: pieces => String c piece :: pieces
           | [] => [String c EmptyString]
           end
  end.

(** The scan of [s.replace(old, "")], left to right: [skip] characters of
    a match found earlier are still to be dropped. *)
Fixpoint delete_from (old : string) (skip : nat) (s : string) : string :=
  match s with
  | EmptyString => EmptyString
  | String c s' =>
      match skip with
      | S k => delete_from old k s'
      | O =>
          if String.prefix old s
          then delete_from old (String.length old - 1) s'
          else String c (delete_from old 0 s')
      end
  end.

(** [s.replace(old, "")]: every non-overlapping occurrence of [old],
    leftmost first, is removed; an empty [old] leaves [s] as it is. *)
Definition replace_with_empty (old s : string) : string :=
  match old with
  | EmptyString => s
  | String _ _ => delete_from old 0 s
  end.

End PyStr.

(** ** Exceptions, results and the trace *)

Inductive exn : Type :=
  | IndexError
  | KeyError (key : string)
  | TypeError
  | JSONDecodeError
  | ConnectionError
  | ExternalError (msg : string).

Inductive Result (A : Type) : Type :=
  | Ok (a : A)
  | Err (e : exn).
Arguments Ok {A} a.
Arguments Err {A} e.

Inductive level : Type := INFO | WARNING.

(** What the request does to the outside, in order. *)
Inductive event : Type :=
  | Log (lvl : level) (msg : string) (args : list string)
  | PlannerCall (search_input : string)
  | SimilaritySearch (query : string) (k : nat)
  | HttpGet (url : string).

#[global] Instance level_eq_dec : EqDecision level.
Proof. solve_decision. Defined.
#[global] Instance event_eq_dec : EqDecision event.
Proof. solve_decision. Defined.

(** A computation: the events it produced and how it ended. *)
Definition M (A : Type) : Type := list event * Result A.

Definition trace {A} (m : M A) : list event := fst m.
Definition outcome {A} (m : M A) : Result A := snd m.

Definition raise {A} (e : exn) : M A := ([], Err e).
Definition emit (ev : event) : M unit := ([ev], Ok tt).
Definition lift {A} (r : Result A) : M A := ([], r).

#[global] Instance M_ret : MRet M := λ A a, ([], Ok a).

(** Sequencing: the second computation runs only when the first one
    ended without an exception; the traces are concatenated. *)
#[global] Instance M_bind : MBind M := λ A B f m,
  match m with
  | (t, Ok a) => let '(t', r) := f a in (t ++ t', r)
  | (t, Err e) => (t, Err e)
  end.

(** [try: body / except IndexError: handler]. Any other exception goes
    through. *)
Definition try_except_IndexError {A} (body handler : M A) : M A :=
  match body with
  | (t, Err IndexError) => let '(t', r) := handler in (t ++ t', r)
  | other => other
  end.

(** A [for] loop that threads an accumulator and stops at the first
    exception. *)
Fixpoint for_each {A B} (body : B → A → M B) (acc : B) (xs : list A) : M B :=
  match xs with
  | [] => mret acc
  | x :: xs' => acc' ← body acc x; for_each body acc' xs'
  end.

(** [lst[i]] for a non-negative [i]. *)
Definition index {A} (l : list A) (i : nat) : Result A :=
  match l !! i with
  | Some x => Ok x
  | None => Err IndexError
  end.

(** A list comprehension whose element expression can raise: the first
    exception ends it. *)
Fixpoint map_result {A B} (f : A → Result B) (l : list A) : Result (list B) :=
  match l with
  | [] => Ok []
  | x :: l' =>
      match f x with
      | Ok y =>
          match map_result f l' with
          | Ok ys => Ok (y :: ys)
          | Err e => Err e
          end
      | Err e => Err e
      end
  end.

(** [logging.info(msg)] and [logging.warning(msg, arg)]. *)
Definition logging_info (msg : string) : M unit := emit (Log INFO msg []).
Definition logging_warning (msg arg : string) : M unit :=
  emit (Log WARNING msg [arg]).

(** ** JSON values, as [r.json()] returns them *)

#[local] Unset Elimination Schemes.
Inductive json : Type :=
  | JNull
  | JBool (b : bool)
  | JInt (n : Z)
  | JFloat (x : float)
  | JStr (s : string)
  | JArr (elems : list json)
  | JObj (fields : list (string * json)).
#[local] Set Elimination Schemes.

(** A [dict] is its list of bindings; a key is looked up from the left. *)
Fixpoint dict_get (key : string) (fields : list (string * json)) : option json :=
  match fields with
  | [] => None
  | (k, v) :: rest => if decide (k = key) then Some v else dict_get key rest
  end.

(** [v[key]] for a string [key]. *)
Definition getitem (v : json) (key : string) : Result json :=
  match v with
  | JObj fields =>
      match dict_get key fields with
      | Some x => Ok x
      | None => Err (KeyError key)
      end
  | _ => Err TypeError
  end.

(** [v[key] if key in v else ""] on a [dict]. *)
Definition get_or_empty (key : string) (fields : list (string * json)) : json :=
  match dict_get key fields with
  | Some x => x
  | None => JStr ""
  end.

(** The elements [for x in v] goes through. *)
Definition iterate (v : json) : Result (list json) :=
  match v with
  | JArr elems => Ok elems
  | JObj fields => Ok (map (λ kv, JStr (fst kv)) fields)
  | JStr s => Ok (map (λ c, JStr (String c EmptyString)) (list_ascii_of_string s))
  | _ => Err TypeError
  end.

(** [v == s] for a [str] s: only an equal [str] is equal to it. *)
#[global] Instance json_eq_str_dec (v : json) (s : string) : Decision (v = JStr s).
Proof.
  destruct v as [| | | |s'| |]; try (right; discriminate).
  destruct (decide (s' = s)) as [->|Hne]; [left; reflexivity|].
  right; intros [= Heq]; exact (Hne Heq).
Defined.

(** ** The data of a request *)

Record CategoryResponse : Type := {
  name : string;
  questions : list string
}.

Record BuyAssistantResponse : Type := {
  message : string;
  categories : list CategoryResponse
}.

(** A LangChain document of the vector store. *)
Record Document : Type := { page_content : string }.

(** The dict appended to [categories] in step 3. *)
Record Category : Type := {
  category_raw : string;
  category_id : string;
  category_name : string;
  domain_id : string;
  similarity_score : float
}.

(** The dict built for every raw search result in step 4. *)
Record Listing : Type := {
  item_id : json;
  title : json;
  permalink : json;
  thumbnail : json;
  item_category_id : json;
  item_domain_id : json
}.

(** The dict appended to [search_results] in step 4. *)
Record SearchResult : Type := {
  sr_category_id : string;
  sr_results : list Listing
}.

(** A carousel after step 5, [{**carousel, **category}]: no questions yet. *)
Record CarouselDraft : Type := {
  d_items : list Listing;
  d_category : Category
}.

(** A carousel of the response, after step 6. *)
Record Carousel : Type := {
  c_items : list Listing;
  c_category_raw : string;
  c_category_id : string;
  c_category_name : string;
  c_domain_id : string;
  c_similarity_score : float;
  c_questions : list string
}.

Record Response : Type := {
  r_message : string;
  r_carousels : list Carousel
}.

(** ** The collaborators *)

(** What [requests.get(url)] gives: the call raises, or it returns a reply
    whose body [r.json()] decodes or fails to decode. The status code plays
    no part: the source does not look at it. *)
Inductive http_reply : Type :=
  | NoReply
  | Reply (body : option json).

(** The iteration order of a Python [set] of strings is not fixed by the
    language (string hashing is seeded per process): any order of the
    distinct elements can occur. *)
Record SetOrder : Type := {
  set_iter : list string → list string;
  set_iter_NoDup : ∀ l, NoDup (set_iter l);
  set_iter_elem : ∀ l x, x ∈ set_iter l ↔ x ∈ l
}.

(** One order among them: the distinct elements by last occurrence. *)
Definition last_occurrence_order : SetOrder := {|
  set_iter := remove_dups;
  set_iter_NoDup := NoDup_remove_dups;
  set_iter_elem := elem_of_remove_dups
|}.

Record World : Type := {
  (** [self.output_parser.parse(self.chat_openai(prompt).content)] for the
      prompt built from [search_input]. *)
  planner : string → Result BuyAssistantResponse;
  (** [self.vectorstore.similarity_search_with_score(query=q, k=1)]. *)
  similarity_search_with_score : string → Result (list (Document * float));
  (** [requests.get(url)]. *)
  requests_get : string → http_reply;
  set_order : SetOrder
}.

(** ** [BuyAssistant] *)

Module BuyAssistant.

Definition CAROUSELS_TO_BUILD : nat := 4.
Definition QUESTIONS_BY_CATEGORY : nat := 2.
Definition ITEMS_BY_CAROUSEL : nat := 5.

Section Chat.

Variable w : World.

(** [obj_to_dict]: the model object and its categories become dicts with
    the same keys and values; on records this changes nothing. *)
Definition obj_to_dict (response_obj : BuyAssistantResponse) : BuyAssistantResponse :=
  {| message := message response_obj;
     categories := map (λ category_obj,
                          {| name := name category_obj;
                             questions := questions category_obj |})
                       (categories response_obj) |}.

(** Steps 1 and 2, lines 86-99. *)
Definition plan (search_input : string) : M BuyAssistantResponse :=
  logging_info "1. Building the prompt";;
  logging_info "2. Calling the chat and parsing the response";;
  emit (PlannerCall search_input);;
  response_obj ← lift (planner w search_input);
  mret (obj_to_dict response_obj).

(** The body of the [try] of step 3, lines 106-113. *)
Definition match_try (categories : list Category) (category : string)
    : M (list Category) :=
  emit (SimilaritySearch category 1);;
  results ← lift (similarity_search_with_score w category);
  result ← lift (index results 0);
  let lines := PyStr.split PyStr.LF (page_content (fst result)) in
  line4 ← lift (index lines 4);
  line5 ← lift (index lines 5);
  line7 ← lift (index lines 7);
  mret (categories ++ [
    {| category_raw := category;
       category_id := PyStr.replace_with_empty "CATEGORY_ID_L3: " line4;
       category_name := PyStr.replace_with_empty "CATEGORY_NAME_L3: " line5;
       domain_id := PyStr.replace_with_empty "DOMAIN_ID: " line7;
       similarity_score := snd result |} ]).

(** One round of the loop of step 3, lines 105-115. *)
Definition match_step (categories : list Category) (category : string)
    : M (list Category) :=
  try_except_IndexError
    (match_try categories category)
    (logging_warning "Category not matched for:" category;; mret categories).

(** Step 3, lines 102-115. *)
Definition match_categories (response_dict : BuyAssistantResponse)
    : M (list Category) :=
  logging_info "3. Matching with MeLi categories";;
  for_each match_step [] (map name (categories response_dict)).

Definition search_url (category_id : string) : string :=
  "http://api.mercadolibre.com/sites/MLA/search?limit=50&sort=relevance&category="
  +:+ category_id.

(** [requests.get(url)], lines 122. *)
Definition get (url : string) : M (option json) :=
  emit (HttpGet url);;
  match requests_get w url with
  | NoReply => raise ConnectionError
  | Reply body => mret body
  end.

(** [r.json()]. *)
Definition r_json (body : option json) : Result json :=
  match body with
  | Some v => Ok v
  | None => Err JSONDecodeError
  end.

(** One element of the list comprehension of lines 125-132. Only a dict
    can be indexed by ["id"]; the other five keys are tested with [in]. *)
Definition to_listing (result : json) : Result Listing :=
  match result with
  | JObj fields =>
      match dict_get "id" fields with
      | Some id =>
          Ok {| item_id := id;
                title := get_or_empty "title" fields;
                permalink := get_or_empty "permalink" fields;
                thumbnail := get_or_empty "thumbnail" fields;
                item_category_id := get_or_empty "category_id" fields;
                item_domain_id := get_or_empty "domain_id" fields |}
      | None => Err (KeyError "id")
      end
  | _ => Err TypeError
  end.

(** One round of the loop of step 4, lines 122-137. *)
Definition fetch_step (search_results : list SearchResult) (category_id : string)
    : M (list SearchResult) :=
  r ← get (search_url category_id);
  body ← lift (r_json r);
  results ← lift (getitem body "results");
  elems ← lift (iterate results);
  results ← lift (map_result to_listing elems);
  mret (search_results ++ [
    {| sr_category_id := category_id; sr_results := results |} ]).

(** Step 4, lines 118-137. *)
Definition fetch_listings (categories : list Category) : M (list SearchResult) :=
  logging_info "4. Calling Search API for each MeLi category";;
  let uq_category_ids := set_iter (set_order w) (map category_id categories) in
  for_each fetch_step [] uq_category_ids.

(** One round of the loop of step 5, lines 143-150. *)
Definition build_step (search_results : list SearchResult)
    (carousels : list CarouselDraft) (category : Category)
    : M (list CarouselDraft) :=
  batch ← lift (index
    (filter (λ x, sr_category_id x = category_id category) search_results) 0);
  let items :=
    take ITEMS_BY_CAROUSEL
      (filter (λ x, item_domain_id x = JStr (domain_id category))
              (sr_results batch)) in
  mret (carousels ++ [ {| d_items := items; d_category := category |} ]).

(** Step 5, lines 140-150. *)
Definition build_carousels (categories : list Category)
    (search_results : list SearchResult) : M (list CarouselDraft) :=
  logging_info "5. Building the carousels";;
  for_each (build_step search_results) [] categories.

(** One round of the loop of step 6, line 155: the carousel gets its
    ["questions"] key. *)
Definition join_step (response_dict : BuyAssistantResponse)
    (joined : list Carousel) (carousel : CarouselDraft) : M (list Carousel) :=
  proposal ← lift (index
    (filter (λ x, name x = category_raw (d_category carousel))
            (categories response_dict)) 0);
  mret (joined ++ [
    {| c_items := d_items carousel;
       c_category_raw := category_raw (d_category carousel);
       c_category_id := category_id (d_category carousel);
       c_category_name := category_name (d_category carousel);
       c_domain_id := domain_id (d_category carousel);
       c_similarity_score := similarity_score (d_category carousel);
       c_questions := questions proposal |} ]).

(** Step 6, lines 153-155. *)
Definition join_questions (response_dict : BuyAssistantResponse)
    (carousels : list CarouselDraft) : M (list Carousel) :=
  logging_info "6. Joining carousels with category questions";;
  for_each (join_step response_dict) [] carousels.

(** Steps 3 to 6 on the parsed plan, lines 101-160. *)
Definition pipeline (response_dict : BuyAssistantResponse) : M Response :=
  categories ← match_categories response_dict;
  search_results ← fetch_listings categories;
  carousels ← build_carousels categories search_results;
  carousels ← join_questions response_dict carousels;
  mret {| r_message := message response_dict; r_carousels := carousels |}.

(** [BuyAssistant.chat], lines 85-160. *)
Definition chat (search_input : string) : M Response :=
  response_dict ← plan search_input;
  pipeline response_dict.

End Chat.

End BuyAssistant.

Import BuyAssistant.

(** ** Outcomes as pure functions *)

#[global] Instance Result_ret : MRet Result := λ A a, Ok a.
#[global] Instance Result_bind : MBind Result := λ A B f r,
  match r with
  | Ok a => f a
  | Err e => Err e
  end.

(** The outcome of a loop whose rounds only append to the accumulator:
    the appended pieces in order, or the first exception. *)
Fixpoint collect {A B} (g : A → Result (list B)) (xs : list A) : Result (list B) :=
  match xs with
  | [] => Ok []
  | x :: xs' => ys ← g x; yss ← collect g xs'; Ok (ys ++ yss)
  end.

(** What a round appends when it starts from the empty accumulator. *)
Definition resolve (w : World) (category : string) : Result (list Category) :=
  outcome (match_step w [] category).
Definition fetch (w : World) (category_id : string) : Result (list SearchResult) :=
  outcome (fetch_step w [] category_id).
Definition draft (search_results : list SearchResult) (category : Category)
    : Result (list CarouselDraft) :=
  outcome (build_step search_results [] category).
Definition join (response_dict : BuyAssistantResponse) (carousel : CarouselDraft)
    : Result (list Carousel) :=
  outcome (join_step response_dict [] carousel).

(** A round neither reads nor drops what was accumulated: it appends, and
    its trace and its exception do not depend on the accumulator. *)
Definition appends {A B} (step : list B → A → M (list B)) : Prop :=
  ∀ acc x,
    step acc x = (trace (step [] x), ys ← outcome (step [] x); Ok (acc ++ ys)).

(** The elements a loop gets to: all of them up to the first whose round
    raises, that one included. *)
Fixpoint rounds {A C} (g : A → Result C) (xs : list A) : list A :=
  match xs with
  | [] => []
  | x :: xs' =>
      match g x with
      | Ok _ => x :: rounds g xs'
      | Err _ => [x]
      end
  end.

(** The listing search for [category_id] ends with an exception: no reply,
    a body that is not JSON, no ["results"], a result without ["id"]. *)
Definition listing_fetch_fails (w : World) (category_id : string) : bool :=
  match fetch w category_id with
  | Ok _ => false
  | Err _ => true
  end.

(** The keys a carousel takes from its category, [{**carousel, **category}]. *)
Definition carousel_category (c : Carousel) : Category :=
  {| category_raw := c_category_raw c;
     category_id := c_category_id c;
     category_name := c_category_name c;
     domain_id := c_domain_id c;
     similarity_score := c_similarity_score c |}.

(** How often [url] is requested in a trace. *)
Definition requests_of (url : string) (t : list event) : nat :=
  length (filter (λ ev, ev = HttpGet url) t).

(** ** Statements of the specification that the code refutes *)

(** The claim that whatever a non-empty query result holds, its first
    match becomes a resolved category. *)
Definition accepts_every_match (w : World) (category : string) : Prop :=
  ∀ doc s rest acc,
    similarity_search_with_score w category = Ok ((doc, s) :: rest) →
    ∃ c, outcome (match_step w acc category) = Ok (acc ++ [c])
         ∧ category_raw c = category ∧ similarity_score c = s.

(** The claim that a response comes back with one carousel per resolved
    category less those whose listing search failed. *)
Definition carousel_count_claim (w : World) (input : string) : Prop :=
  ∀ rd cats,
    planner w input = Ok rd →
    outcome (match_categories w rd) = Ok cats →
    ∃ resp,
      outcome (chat w input) = Ok resp ∧
      length (r_carousels resp)
      = length cats
        - length (filter (λ c, listing_fetch_fails w (category_id c) = true) cats).

(** The claim that a failed listing search costs its own carousels only:
    the response has the carousels of the other resolved categories. *)
Definition skip_and_continue_claim (w : World) (input : string) : Prop :=
  ∀ rd cats,
    planner w input = Ok rd →
    outcome (match_categories w rd) = Ok cats →
    ∃ resp,
      outcome (chat w input) = Ok resp ∧
      map carousel_category (r_carousels resp)
      = filter (λ c, listing_fetch_fails w (category_id c) = false) cats.

(** The claim that every distinct resolved id is requested exactly once
    and gets exactly one batch. *)
Definition fetched_once_claim (w : World) (cats : list Category) : Prop :=
  ∀ cid,
    cid ∈ map category_id cats →
    requests_of (search_url cid) (trace (fetch_listings w cats)) = 1 ∧
    ∃ srs,
      outcome (fetch_listings w cats) = Ok srs ∧
      length (filter (λ b, sr_category_id b = cid) srs) = 1.

(** ** A marketplace to run the pipeline on *)

Module Market.

Definition nl : string := String PyStr.LF EmptyString.

(** A descriptor of the taxonomy index: eight lines, the level-3 id and
    name on lines 4 and 5, the domain on line 7. *)
Definition descriptor (cid cname dom : string) : Document :=
  {| page_content :=
       "CATEGORY_ID_L1: MLA1574" +:+ nl +:+
       "CATEGORY_NAME_L1: Hogar" +:+ nl +:+
       "CATEGORY_ID_L2: MLA1575" +:+ nl +:+
       "CATEGORY_NAME_L2: Electrodomesticos" +:+ nl +:+
       "CATEGORY_ID_L3: " +:+ cid +:+ nl +:+
       "CATEGORY_NAME_L3: " +:+ cname +:+ nl +:+
       "CATEGORY_PATH: Hogar > Electrodomesticos" +:+ nl +:+
       "DOMAIN_ID: " +:+ dom |}.

Definition raw (id dom : string) : json :=
  JObj [("id", JStr id); ("title", JStr ("Producto " +:+ id));
        ("category_id", JStr "123"); ("domain_id", JStr dom)].

Definition listing (id dom : string) : Listing :=
  {| item_id := JStr id; title := JStr ("Producto " +:+ id);
     permalink := JStr ""; thumbnail := JStr "";
     item_category_id := JStr "123"; item_domain_id := JStr dom |}.

Definition licuadoras : CategoryResponse :=
  {| name := "Licuadoras";
     questions := ["Que potencia tiene?"; "Es de vidrio?"] |}.
Definition ollas : CategoryResponse :=
  {| name := "Ollas"; questions := ["De que material es?"; "Sirve para induccion?"] |}.
Definition aspiradoras : CategoryResponse :=
  {| name := "Aspiradoras"; questions := ["Tiene bolsa?"; "Es inalambrica?"] |}.
Definition batidoras : CategoryResponse :=
  {| name := "Batidoras"; questions := ["Cuantas velocidades?"; "Incluye bowl?"] |}.

Definition escobas : CategoryResponse :=
  {| name := "Escobas"; questions := ["Es de cerdas duras?"; "Trae pala?"] |}.

Definition kitchen_plan : BuyAssistantResponse :=
  {| message := "Hola, te ayudo a equipar tu cocina";
     categories := [licuadoras; ollas] |}.
Definition cleaning_plan : BuyAssistantResponse :=
  {| message := "Hola, te ayudo con la limpieza";
     categories := [licuadoras; aspiradoras] |}.
Definition baking_plan : BuyAssistantResponse :=
  {| message := "Hola, te ayudo con la reposteria";
     categories := [licuadoras; batidoras] |}.
Definition sweeping_plan : BuyAssistantResponse :=
  {| message := "Hola, te ayudo a barrer";
     categories := [licuadoras; escobas] |}.

(** Seven results for category 123, three of them of another domain. *)
Definition blenders_page : json :=
  JObj [("results", JArr [
    raw "MLA1" "MLA-BLENDERS"; raw "MLA2" "MLA-JUICERS";
    raw "MLA3" "MLA-BLENDERS"; raw "MLA4" "MLA-BLENDERS";
    raw "MLA5" "MLA-JUICERS"; raw "MLA6" "MLA-JUICERS";
    raw "MLA7" "MLA-BLENDERS" ])].

Definition blenders_listings : list Listing :=
  [ listing "MLA1" "MLA-BLENDERS"; listing "MLA2" "MLA-JUICERS";
    listing "MLA3" "MLA-BLENDERS"; listing "MLA4" "MLA-BLENDERS";
    listing "MLA5" "MLA-JUICERS"; listing "MLA6" "MLA-JUICERS";
    listing "MLA7" "MLA-BLENDERS" ].

(** "Ollas" matches nothing; the descriptor matched by "Batidoras" has one
    line only; the search for category 456 answers with a body that is not
    JSON, the one for 789 does not answer. *)
Definition world_with (order : SetOrder) : World :=
  {| planner := λ search_input,
       if decide (search_input = "necesito equipar mi cocina") then Ok kitchen_plan
       else if decide (search_input = "quiero limpiar la casa") then Ok cleaning_plan
       else if decide (search_input = "quiero hacer tortas") then Ok baking_plan
       else if decide (search_input = "quiero barrer") then Ok sweeping_plan
       else Err (ExternalError "OutputParserException");
     similarity_search_with_score := λ query,
       if decide (query = "Licuadoras")
       then Ok [(descriptor "123" "Licuadoras" "MLA-BLENDERS", 0.25%float)]
       else if decide (query = "Aspiradoras")
       then Ok [(descriptor "456" "Aspiradoras" "MLA-VACUUM_CLEANERS", 0.5%float)]
       else if decide (query = "Escobas")
       then Ok [(descriptor "789" "Escobas" "MLA-BROOMS", 0.5%float)]
       else if decide (query = "Batidoras")
       then Ok [({| page_content := "Batidoras de mano" |}, 0.75%float)]
       else Ok [];
     requests_get := λ url,
       if decide (url = search_url "123") then Reply (Some blenders_page)
       else if decide (url = search_url "456") then Reply None
       else NoReply;
     set_order := order |}.

Definition world : World := world_with last_occurrence_order.

Definition blenders : Category :=
  {| category_raw := "Licuadoras"; category_id := "123";
     category_name := "Licuadoras"; domain_id := "MLA-BLENDERS";
     similarity_score := 0.25%float |}.
Definition vacuum_cleaners : Category :=
  {| category_raw := "Aspiradoras"; category_id := "456";
     category_name := "Aspiradoras"; domain_id := "MLA-VACUUM_CLEANERS";
     similarity_score := 0.5%float |}.
Definition brooms : Category :=
  {| category_raw := "Escobas"; category_id := "789";
     category_name := "Escobas"; domain_id := "MLA-BROOMS";
     similarity_score := 0.5%float |}.

Definition blenders_carousel : Carousel :=
  {| c_items := [ listing "MLA1" "MLA-BLENDERS"; listing "MLA3" "MLA-BLENDERS";
                  listing "MLA4" "MLA-BLENDERS"; listing "MLA7" "MLA-BLENDERS" ];
     c_category_raw := "Licuadoras"; c_category_id := "123";
     c_category_name := "Licuadoras"; c_domain_id := "MLA-BLENDERS";
     c_similarity_score := 0.25%float;
     c_questions := ["Que potencia tiene?"; "Es de vidrio?"] |}.

Definition kitchen_response : Response :=
  {| r_message := "Hola, te ayudo a equipar tu cocina";
     r_carousels := [blenders_carousel] |}.

End Market.

(** ** Reading strings and traces *)

(** [old in s]: [old] starts at some position of [s]. *)
Fixpoint occurs (old s : string) : bool :=
  String.prefix old s ||
  match s with
  | EmptyString => false
  | String _ s' => occurs old s'
  end.

(** [s.count(c)] for a character [c]. *)
Definition count_char (c : ascii) (s : string) : nat :=
  length (filter (λ x, x = c) (list_ascii_of_string s)).

(** The queries sent to the vector store, in order. *)
Definition queries_of (t : list event) : list string :=
  omap (λ ev, match ev with SimilaritySearch q _ => Some q | _ => None end) t.

(** The URLs requested, in order. *)
Definition urls_of (t : list event) : list string :=
  omap (λ ev, match ev with HttpGet url => Some url | _ => None end) t.

(** ** A marketplace with faults *)

Module Faulty.

Definition vajilla : CategoryResponse :=
  {| name := "Vajilla"; questions := ["Es apta para microondas?"; "Cuantas piezas trae?"] |}.
Definition sartenes : CategoryResponse :=
  {| name := "Sartenes"; questions := ["Es antiadherente?"; "Que diametro tiene?"] |}.

Definition pans_plan : BuyAssistantResponse :=
  {| message := "Hola, te ayudo con las ollas"; categories := [Market.ollas] |}.
Definition dishes_plan : BuyAssistantResponse :=
  {| message := "Hola, te ayudo con la vajilla";
     categories := [Market.licuadoras; vajilla] |}.
Definition frying_plan : BuyAssistantResponse :=
  {| message := "Hola, te ayudo con las sartenes";
     categories := [Market.licuadoras; sartenes] |}.
Definition twice_plan : BuyAssistantResponse :=
  {| message := "Hola, te ayudo con las licuadoras";
     categories := [ Market.licuadoras;
                     {| name := "Licuadoras"; questions := ["Es silenciosa?"] |} ] |}.

(** A page whose second result has no ["id"]. *)
Definition broken_page : json :=
  JObj [("results", JArr [
    Market.raw "MLA1" "MLA-BLENDERS";
    JObj [("title", JStr "Sin identificador")];
    Market.raw "MLA3" "MLA-BLENDERS" ])].

(** The vector store times out on "Vajilla" and raises an [IndexError] of
    its own on "Sartenes"; the page of category 321 is broken. *)
Definition world : World :=
  {| planner := λ search_input,
       if decide (search_input = "necesito ollas") then Ok pans_plan
       else if decide (search_input = "necesito vajilla") then Ok dishes_plan
       else if decide (search_input = "necesito sartenes") then Ok frying_plan
       else if decide (search_input = "dos licuadoras") then Ok twice_plan
       else Err (ExternalError "OutputParserException");
     similarity_search_with_score := λ query,
       if decide (query = "Vajilla") then Err (ExternalError "Timeout")
       else if decide (query = "Sartenes") then Err IndexError
       else similarity_search_with_score Market.world query;
     requests_get := λ url,
       if decide (url = search_url "321") then Reply (Some broken_page)
       else requests_get Market.world url;
     set_order := last_occurrence_order |}.

End Faulty.

(** ** Two names for one category *)

Module Pantry.

Definition vasos : CategoryResponse :=
  {| name := "Licuadoras de vaso";
     questions := ["De cuantos litros es el vaso?"; "El vaso es desmontable?"] |}.

Definition pantry_plan : BuyAssistantResponse :=
  {| message := "Hola, te ayudo con la cocina";
     categories := [Market.licuadoras; Market.ollas; vasos] |}.

(** "Licuadoras de vaso" resolves to the category of "Licuadoras", with
    another score; "Ollas" still matches nothing. *)
Definition world : World :=
  {| planner := λ search_input,
       if decide (search_input = "licuadora, olla y vaso") then Ok pantry_plan
       else Err (ExternalError "OutputParserException");
     similarity_search_with_score := λ query,
       if decide (query = "Licuadoras de vaso")
       then Ok [(Market.descriptor "123" "Licuadoras" "MLA-BLENDERS", 0.5%float)]
       else similarity_search_with_score Market.world query;
     requests_get := requests_get Market.world;
     set_order := last_occurrence_order |}.

Definition jug_blenders : Category :=
  {| category_raw := "Licuadoras de vaso"; category_id := "123";
     category_name := "Licuadoras"; domain_id := "MLA-BLENDERS";
     similarity_score := 0.5%float |}.

Definition jug_blenders_carousel : Carousel :=
  {| c_items := [ Market.listing "MLA1" "MLA-BLENDERS";
                  Market.listing "MLA3" "MLA-BLENDERS";
                  Market.listing "MLA4" "MLA-BLENDERS";
                  Market.listing "MLA7" "MLA-BLENDERS" ];
     c_category_raw := "Licuadoras de vaso"; c_category_id := "123";
     c_category_name := "Licuadoras"; c_domain_id := "MLA-BLENDERS";
     c_similarity_score := 0.5%float;
     c_questions := ["De cuantos litros es el vaso?"; "El vaso es desmontable?"] |}.

Definition pantry_response : Response :=
  {| r_message := "Hola, te ayudo con la cocina";
     r_carousels := [Market.blenders_carousel; jug_blenders_carousel] |}.

End Pantry.

(** ** The monad *)

Section Monad.

Context {A B : Type}.

Lemma outcome_bind (m : M A) (f : A → M B) :
  outcome (m ≫= f) = outcome m ≫= (λ a, outcome (f a)).
Proof.
  destruct m as [t [a|e]]; cbn; [|reflexivity].
  destruct (f a); reflexivity.
Qed.

Lemma trace_bind_ok (m : M A) (f : A → M B) a :
  outcome m = Ok a → trace (m ≫= f) = trace m ++ trace (f a).
Proof.
  destruct m as [t r]; cbn; intros ->. destruct (f a); reflexivity.
Qed.

Lemma trace_bind_err (m : M A) (f : A → M B) e :
  outcome m = Err e → trace (m ≫= f) = trace m.
Proof. destruct m as [t r]; cbn; intros ->; reflexivity. Qed.

Lemma outcome_lift (r : Result A) : outcome (lift r) = r.
Proof. reflexivity. Qed.

Lemma outcome_mret (a : A) : outcome (mret a : M A) = Ok a.
Proof. reflexivity. Qed.

Lemma Result_ok_bind (a : A) (f : A → Result B) : Ok a ≫= f = f a.
Proof. reflexivity. Qed.

Lemma Result_err_bind (e : exn) (f : A → Result B) : Err e ≫= f = Err e.
Proof. reflexivity. Qed.

Lemma Result_bind_ok (r : Result A) (f : A → Result B) b :
  r ≫= f = Ok b → ∃ a, r = Ok a ∧ f a = Ok b.
Proof. destruct r as [a|e]; cbn; [eauto|discriminate]. Qed.

End Monad.

Lemma trace_bind {A B} (m : M A) (f : A → M B) :
  trace (m ≫= f)
  = trace m ++ match outcome m with Ok a => trace (f a) | Err _ => [] end.
Proof.
  destruct (outcome m) as [a|e] eqn:Ho.
  - by apply trace_bind_ok.
  - rewrite app_nil_r. by apply (trace_bind_err _ _ e).
Qed.

Lemma M_bind_assoc {A B C} (m : M A) (f : A → M B) (g : B → M C) :
  (m ≫= f) ≫= g = m ≫= (λ a, f a ≫= g).
Proof.
  destruct m as [t [a|e]]; cbn; [|reflexivity].
  destruct (f a) as [t' [b|e']]; cbn; [|reflexivity].
  destruct (g b) as [t'' r]. by rewrite app_assoc.
Qed.

Lemma M_bind_ext {A B} (m : M A) (f g : A → M B) :
  (∀ a, f a = g a) → m ≫= f = m ≫= g.
Proof.
  intros Hfg. destruct m as [t [a|e]]; cbn; [|reflexivity]. by rewrite Hfg.
Qed.

Lemma M_ret_bind {A B} (a : A) (f : A → M B) : mret a ≫= f = f a.
Proof. cbn. by destruct (f a). Qed.

(** A loop over [xs1 ++ xs2] is the loop over [xs1] followed by the loop
    over [xs2] on what the first one accumulated. *)
Lemma for_each_app {A B} (step : B → A → M B) (acc : B) (xs1 xs2 : list A) :
  for_each step acc (xs1 ++ xs2)
  = acc' ← for_each step acc xs1; for_each step acc' xs2.
Proof.
  revert acc; induction xs1 as [|x xs1 IH]; intros acc.
  - cbn [app for_each]. by rewrite M_ret_bind.
  - cbn [app for_each]. rewrite M_bind_assoc. apply M_bind_ext.
    intros acc'. apply IH.
Qed.

(** ** Loops that append *)

Section ForEach.

Context {A B : Type} (step : list B → A → M (list B)).
Hypothesis Happ : appends step.

Lemma appends_outcome acc x :
  outcome (step acc x) = ys ← outcome (step [] x); Ok (acc ++ ys).
Proof. rewrite Happ; reflexivity. Qed.

Lemma appends_trace acc x : trace (step acc x) = trace (step [] x).
Proof. rewrite Happ; reflexivity. Qed.

Lemma for_each_outcome xs acc :
  outcome (for_each step acc xs)
  = yss ← collect (λ x, outcome (step [] x)) xs; Ok (acc ++ yss).
Proof.
  revert acc; induction xs as [|x xs IH]; intros acc; cbn.
  - by rewrite app_nil_r.
  - rewrite outcome_bind, appends_outcome.
    destruct (outcome (step [] x)) as [ys|e]; cbn; [|reflexivity].
    rewrite IH. destruct (collect _ xs) as [yss|e]; cbn; [|reflexivity].
    by rewrite app_assoc.
Qed.

End ForEach.

Section Collect.

Context {A B : Type} (g : A → Result (list B)).

Lemma collect_app xs1 xs2 :
  collect g (xs1 ++ xs2)
  = yss1 ← collect g xs1; yss2 ← collect g xs2; Ok (yss1 ++ yss2).
Proof.
  induction xs1 as [|x xs1 IH]; cbn.
  - destruct (collect g xs2); reflexivity.
  - destruct (g x) as [ys|e]; cbn; [|reflexivity].
    rewrite IH. destruct (collect g xs1) as [yss1|e]; cbn; [|reflexivity].
    destruct (collect g xs2) as [yss2|e]; cbn; [|reflexivity].
    by rewrite app_assoc.
Qed.

Lemma collect_elem xs yss y :
  collect g xs = Ok yss →
  y ∈ yss ↔ ∃ x ys, x ∈ xs ∧ g x = Ok ys ∧ y ∈ ys.
Proof.
  revert yss; induction xs as [|x xs IH]; cbn; intros yss Hc.
  - injection Hc as <-. split; [by intros ?%elem_of_nil|].
    by intros (? & ? & ?%elem_of_nil & _).
  - destruct (g x) as [ys|e] eqn:Hg; cbn in Hc; [|discriminate].
    destruct (collect g xs) as [yss'|e] eqn:Hc'; cbn in Hc; [|discriminate].
    injection Hc as <-. rewrite elem_of_app, (IH yss' eq_refl). split.
    + intros [Hy|(x' & ys' & Hx' & Hg' & Hy)].
      * exists x, ys. by rewrite elem_of_cons; auto.
      * exists x', ys'. by rewrite elem_of_cons; auto.
    + intros (x' & ys' & [->|Hx']%elem_of_cons & Hg' & Hy).
      * left. congruence.
      * right. eauto.
Qed.

(** When every round appends exactly one element, the result is as long
    as the input, element by element. *)
Lemma collect_singletons (R : A → B → Prop) xs yss :
  (∀ x ys, g x = Ok ys → ∃ y, ys = [y] ∧ R x y) →
  collect g xs = Ok yss → Forall2 R xs yss.
Proof.
  intros Hg; revert yss; induction xs as [|x xs IH]; cbn; intros yss Hc.
  - injection Hc as <-. constructor.
  - destruct (g x) as [ys|e] eqn:Hgx; cbn in Hc; [|discriminate].
    destruct (collect g xs) as [yss'|e] eqn:Hc'; cbn in Hc; [|discriminate].
    injection Hc as <-. destruct (Hg x ys Hgx) as (y & -> & Hy).
    constructor; auto.
Qed.

(** The loop ends with an exception exactly when some round raises. *)
Lemma collect_ok xs :
  (∀ x, x ∈ xs → ∃ ys, g x = Ok ys) → ∃ yss, collect g xs = Ok yss.
Proof.
  induction xs as [|x xs IH]; cbn; intros Hg; [eauto|].
  destruct (Hg x) as [ys ->]; [left|]; cbn.
  destruct IH as [yss ->]; [intros; apply Hg; by right|]; cbn. eauto.
Qed.

Lemma collect_err xs x e :
  x ∈ xs → g x = Err e → ∃ x' e', x' ∈ xs ∧ g x' = Err e' ∧ collect g xs = Err e'.
Proof.
  induction xs as [|x0 xs IH]; [by intros ?%elem_of_nil|].
  intros Hx Hg; cbn. destruct (g x0) as [ys|e0] eqn:Hg0; cbn.
  - apply elem_of_cons in Hx as [->|Hx]; [congruence|].
    destruct (IH Hx Hg) as (x' & e' & Hx' & Hg' & ->); cbn.
    exists x', e'. split; [by right|done].
  - exists x0, e0. split; [left|done].
Qed.

End Collect.

(** ** The rounds of the four loops *)

Section Rounds.

Variable w : World.

Lemma match_step_appends : appends (match_step w).
Proof.
  intros acc x.
  unfold match_step, match_try, try_except_IndexError, logging_warning.
  destruct (similarity_search_with_score w x) as [[|[doc s] rest]|e]; cbn.
  - by rewrite app_nil_r.
  - generalize (PyStr.split PyStr.LF (page_content doc)); intros lines.
    unfold index.
    destruct (lines !! 4); cbn; [|by rewrite app_nil_r].
    destruct (lines !! 5); cbn; [|by rewrite app_nil_r].
    destruct (lines !! 7); cbn; [|by rewrite app_nil_r].
    reflexivity.
  - destruct e; cbn; try reflexivity. by rewrite app_nil_r.
Qed.

Lemma fetch_step_appends : appends (fetch_step w).
Proof.
  intros acc cid. unfold fetch_step, get.
  destruct (requests_get w (search_url cid)) as [|[body|]]; cbn; try reflexivity.
  destruct (getitem body "results") as [raw|e]; cbn; [|reflexivity].
  destruct (iterate raw) as [elems|e]; cbn; [|reflexivity].
  destruct (map_result to_listing elems) as [results|e]; cbn; reflexivity.
Qed.

Lemma build_step_appends srs : appends (build_step srs).
Proof.
  intros acc cat. unfold build_step.
  destruct (index _ 0) as [batch|e]; cbn; reflexivity.
Qed.

Lemma join_step_appends rd : appends (join_step rd).
Proof.
  intros acc d. unfold join_step.
  destruct (index _ 0) as [proposal|e]; cbn; reflexivity.
Qed.

(** A round of step 3 appends nothing, or the category read off the
    first result. *)
Lemma resolve_inv x ys :
  resolve w x = Ok ys →
  ys = [] ∨
  ∃ doc s rest line4 line5 line7,
    similarity_search_with_score w x = Ok ((doc, s) :: rest) ∧
    PyStr.split PyStr.LF (page_content doc) !! 4 = Some line4 ∧
    PyStr.split PyStr.LF (page_content doc) !! 5 = Some line5 ∧
    PyStr.split PyStr.LF (page_content doc) !! 7 = Some line7 ∧
    ys = [ {| category_raw := x;
              category_id := PyStr.replace_with_empty "CATEGORY_ID_L3: " line4;
              category_name := PyStr.replace_with_empty "CATEGORY_NAME_L3: " line5;
              domain_id := PyStr.replace_with_empty "DOMAIN_ID: " line7;
              similarity_score := s |} ].
Proof.
  unfold resolve, match_step, match_try, try_except_IndexError, logging_warning.
  destruct (similarity_search_with_score w x) as [[|[doc s] rest]|e]; cbn.
  - intros [= <-]; by left.
  - unfold index.
    destruct (_ !! 4) as [line4|] eqn:H4; cbn; [|intros [= <-]; by left].
    destruct (_ !! 5) as [line5|] eqn:H5; cbn; [|intros [= <-]; by left].
    destruct (_ !! 7) as [line7|] eqn:H7; cbn; [|intros [= <-]; by left].
    intros [= <-]; right. by exists doc, s, rest, line4, line5, line7.
  - destruct e; cbn; try discriminate. intros [= <-]; by left.
Qed.

Lemma resolve_category_raw x ys c :
  resolve w x = Ok ys → c ∈ ys → category_raw c = x.
Proof.
  intros [->|(doc & s & rest & l4 & l5 & l7 & _ & _ & _ & _ & ->)]%resolve_inv.
  - by intros ?%elem_of_nil.
  - by intros ->%list_elem_of_singleton.
Qed.

(** The two ways a proposal is dropped. *)
Lemma match_step_empty acc x :
  similarity_search_with_score w x = Ok [] →
  match_step w acc x
  = ([SimilaritySearch x 1; Log WARNING "Category not matched for:" [x]], Ok acc).
Proof.
  intros Hs.
  unfold match_step, match_try, try_except_IndexError, logging_warning.
  by rewrite Hs.
Qed.

Lemma match_step_short acc x doc s rest :
  similarity_search_with_score w x = Ok ((doc, s) :: rest) →
  length (PyStr.split PyStr.LF (page_content doc)) < 8 →
  match_step w acc x
  = ([SimilaritySearch x 1; Log WARNING "Category not matched for:" [x]], Ok acc).
Proof.
  intros Hs Hlen.
  unfold match_step, match_try, try_except_IndexError, logging_warning.
  rewrite Hs; cbn. unfold index.
  destruct (_ !! 4) as [line4|]; cbn; [|reflexivity].
  destruct (_ !! 5) as [line5|]; cbn; [|reflexivity].
  rewrite (lookup_ge_None_2 _ 7) by lia. reflexivity.
Qed.

(** A round of step 4 issues one request, whatever comes of it. *)
Lemma fetch_step_trace acc cid :
  trace (fetch_step w acc cid) = [HttpGet (search_url cid)].
Proof.
  unfold fetch_step, get.
  destruct (requests_get w (search_url cid)) as [|[body|]]; cbn; try reflexivity.
  destruct (getitem body "results") as [raw|e]; cbn; [|reflexivity].
  destruct (iterate raw) as [elems|e]; cbn; [|reflexivity].
  destruct (map_result to_listing elems) as [results|e]; cbn; reflexivity.
Qed.

Lemma fetch_inv cid ys :
  fetch w cid = Ok ys →
  ∃ results, ys = [ {| sr_category_id := cid; sr_results := results |} ].
Proof.
  unfold fetch, fetch_step, get.
  destruct (requests_get w (search_url cid)) as [|[body|]]; cbn; try discriminate.
  destruct (getitem body "results") as [raw|e]; cbn; [|discriminate].
  destruct (iterate raw) as [elems|e]; cbn; [|discriminate].
  destruct (map_result to_listing elems) as [results|e]; cbn; [|discriminate].
  intros [= <-]. by exists results.
Qed.

Lemma draft_inv srs cat ys :
  draft srs cat = Ok ys →
  ∃ batch,
    filter (λ x, sr_category_id x = category_id cat) srs !! 0 = Some batch ∧
    ys = [ {| d_items :=
                take ITEMS_BY_CAROUSEL
                  (filter (λ x, item_domain_id x = JStr (domain_id cat))
                          (sr_results batch));
              d_category := cat |} ].
Proof.
  unfold draft, build_step, index.
  destruct (_ !! 0) as [batch|]; cbn; [|discriminate].
  intros [= <-]. by exists batch.
Qed.

Lemma draft_ok srs cat batch :
  batch ∈ srs → sr_category_id batch = category_id cat →
  ∃ ys, draft srs cat = Ok ys.
Proof.
  intros Hin Hid. unfold draft, build_step, index.
  destruct (filter _ srs) as [|b bs] eqn:Hf; cbn; [|eauto].
  assert (batch ∈ filter (λ x, sr_category_id x = category_id cat) srs) as Hb
    by by apply list_elem_of_filter.
  rewrite Hf in Hb. by apply elem_of_nil in Hb.
Qed.

Lemma join_inv rd d ys :
  join rd d = Ok ys →
  ∃ proposal,
    filter (λ x, name x = category_raw (d_category d)) (categories rd) !! 0
      = Some proposal ∧
    ys = [ {| c_items := d_items d;
              c_category_raw := category_raw (d_category d);
              c_category_id := category_id (d_category d);
              c_category_name := category_name (d_category d);
              c_domain_id := domain_id (d_category d);
              c_similarity_score := similarity_score (d_category d);
              c_questions := questions proposal |} ].
Proof.
  unfold join, join_step, index.
  destruct (_ !! 0) as [proposal|]; cbn; [|discriminate].
  intros [= <-]. by exists proposal.
Qed.

Lemma join_ok rd d proposal :
  proposal ∈ categories rd → name proposal = category_raw (d_category d) →
  ∃ ys, join rd d = Ok ys.
Proof.
  intros Hin Hname. unfold join, join_step, index.
  destruct (filter _ (categories rd)) as [|p ps] eqn:Hf; cbn; [|eauto].
  assert (proposal ∈ filter (λ x, name x = category_raw (d_category d))
                            (categories rd)) as Hp
    by by apply list_elem_of_filter.
  rewrite Hf in Hp. by apply elem_of_nil in Hp.
Qed.

End Rounds.

(** ** The stages *)

Section Stages.

Variable w : World.

Lemma Result_bind_app_nil {B} (r : Result (list B)) :
  (yss ← r; Ok ([] ++ yss)) = r.
Proof. by destruct r. Qed.

Lemma obj_to_dict_id rd : obj_to_dict rd = rd.
Proof.
  destruct rd as [msg cats]; unfold obj_to_dict; cbn. f_equal.
  induction cats as [|[n qs] cats IH]; cbn; [done|]. by rewrite IH.
Qed.

Lemma match_categories_outcome rd :
  outcome (match_categories w rd) = collect (resolve w) (map name (categories rd)).
Proof.
  unfold match_categories. rewrite outcome_bind; cbn.
  rewrite (for_each_outcome _ (match_step_appends w)).
  apply Result_bind_app_nil.
Qed.

Lemma fetch_listings_outcome cats :
  outcome (fetch_listings w cats)
  = collect (fetch w) (set_iter (set_order w) (map category_id cats)).
Proof.
  unfold fetch_listings. rewrite outcome_bind; cbn.
  rewrite (for_each_outcome _ (fetch_step_appends w)).
  apply Result_bind_app_nil.
Qed.

Lemma build_carousels_outcome cats srs :
  outcome (build_carousels cats srs) = collect (draft srs) cats.
Proof.
  unfold build_carousels. rewrite outcome_bind; cbn.
  rewrite (for_each_outcome _ (build_step_appends srs)).
  apply Result_bind_app_nil.
Qed.

Lemma join_questions_outcome rd drafts :
  outcome (join_questions rd drafts) = collect (join rd) drafts.
Proof.
  unfold join_questions. rewrite outcome_bind; cbn.
  rewrite (for_each_outcome _ (join_step_appends rd)).
  apply Result_bind_app_nil.
Qed.

Lemma pipeline_outcome rd :
  outcome (pipeline w rd)
  = cats ← outcome (match_categories w rd);
    srs ← outcome (fetch_listings w cats);
    drafts ← outcome (build_carousels cats srs);
    carousels ← outcome (join_questions rd drafts);
    Ok {| r_message := message rd; r_carousels := carousels |}.
Proof.
  unfold pipeline. rewrite outcome_bind.
  destruct (outcome (match_categories w rd)) as [cats|e];
    [rewrite !Result_ok_bind|by rewrite !Result_err_bind].
  rewrite outcome_bind.
  destruct (outcome (fetch_listings w cats)) as [srs|e];
    [rewrite !Result_ok_bind|by rewrite !Result_err_bind].
  rewrite outcome_bind.
  destruct (outcome (build_carousels cats srs)) as [drafts|e];
    [rewrite !Result_ok_bind|by rewrite !Result_err_bind].
  rewrite outcome_bind.
  destruct (outcome (join_questions rd drafts)) as [cs|e];
    [rewrite !Result_ok_bind|by rewrite !Result_err_bind].
  reflexivity.
Qed.

Lemma plan_outcome input :
  outcome (plan w input) = rd ← planner w input; Ok rd.
Proof.
  unfold plan. destruct (planner w input) as [rd|e]; cbn.
  - by rewrite obj_to_dict_id.
  - reflexivity.
Qed.

Lemma chat_outcome input :
  outcome (chat w input) = rd ← planner w input; outcome (pipeline w rd).
Proof.
  unfold chat. rewrite outcome_bind, plan_outcome.
  by destruct (planner w input).
Qed.

(** Every resolved category comes from a proposal of the plan. *)
Lemma resolved_from_plan rd cats c :
  outcome (match_categories w rd) = Ok cats → c ∈ cats →
  ∃ proposal, proposal ∈ categories rd ∧ name proposal = category_raw c
              ∧ ∃ ys, resolve w (category_raw c) = Ok ys ∧ c ∈ ys.
Proof.
  rewrite match_categories_outcome. intros Hc Hin.
  apply (collect_elem _ _ _ c) in Hc. apply Hc in Hin as (x & ys & Hx & Hr & Hy).
  apply list_elem_of_fmap in Hx as (proposal & -> & Hp).
  pose proof (resolve_category_raw _ _ _ _ Hr Hy) as Hraw.
  exists proposal. split; [done|]. split; [done|]. exists ys. by rewrite Hraw.
Qed.

(** The batches of a completed step 4: one per element of the set of
    resolved ids, in iteration order. *)
Lemma fetched_ids cats srs :
  outcome (fetch_listings w cats) = Ok srs →
  map sr_category_id srs = set_iter (set_order w) (map category_id cats).
Proof.
  rewrite fetch_listings_outcome.
  generalize (set_iter (set_order w) (map category_id cats)); intros ids.
  revert srs; induction ids as [|cid ids IH]; cbn; intros srs Hc.
  - by injection Hc as <-.
  - destruct (fetch w cid) as [ys|e] eqn:Hf; cbn in Hc; [|discriminate].
    destruct (collect (fetch w) ids) as [yss|e] eqn:Hc'; cbn in Hc; [|discriminate].
    injection Hc as <-. apply fetch_inv in Hf as [results ->]; cbn.
    by rewrite (IH yss).
Qed.

Lemma fetched_batch cats srs c :
  outcome (fetch_listings w cats) = Ok srs → c ∈ cats →
  ∃ batch, batch ∈ srs ∧ sr_category_id batch = category_id c.
Proof.
  intros Hids%fetched_ids Hc.
  assert (category_id c ∈ map sr_category_id srs) as Hin.
  { rewrite Hids. apply set_iter_elem. apply list_elem_of_fmap. eauto. }
  apply list_elem_of_fmap in Hin as (batch & Heq & Hb). eauto.
Qed.

End Stages.

(** ** Runs *)

Example kitchen_run :
  outcome (chat Market.world "necesito equipar mi cocina") = Ok Market.kitchen_response.
Proof. vm_compute. reflexivity. Qed.

Example cleaning_run :
  outcome (chat Market.world "quiero limpiar la casa") = Err JSONDecodeError.
Proof. vm_compute. reflexivity. Qed.

Example baking_run :
  outcome (chat Market.world "quiero hacer tortas") = Ok
    {| r_message := "Hola, te ayudo con la reposteria";
       r_carousels := [Market.blenders_carousel] |}.
Proof. vm_compute. reflexivity. Qed.

Example kitchen_resolved :
  outcome (match_categories Market.world Market.kitchen_plan) = Ok [Market.blenders].
Proof. vm_compute. reflexivity. Qed.

(** ** Requests *)

Section Requests.

Variable w : World.

Lemma chat_ok_inv input resp :
  outcome (chat w input) = Ok resp →
  ∃ rd cats srs drafts,
    planner w input = Ok rd ∧
    outcome (match_categories w rd) = Ok cats ∧
    outcome (fetch_listings w cats) = Ok srs ∧
    collect (draft srs) cats = Ok drafts ∧
    collect (join rd) drafts = Ok (r_carousels resp) ∧
    r_message resp = message rd.
Proof.
  rewrite chat_outcome. intros (rd & Hp & H)%Result_bind_ok.
  rewrite pipeline_outcome in H.
  apply Result_bind_ok in H as (cats & Hcats & H).
  apply Result_bind_ok in H as (srs & Hsrs & H).
  apply Result_bind_ok in H as (drafts & Hd & H).
  apply Result_bind_ok in H as (cs & Hcs & H).
  injection H as <-. rewrite build_carousels_outcome in Hd.
  rewrite join_questions_outcome in Hcs.
  by exists rd, cats, srs, drafts.
Qed.

Lemma drafts_inv srs cats drafts d :
  collect (draft srs) cats = Ok drafts → d ∈ drafts →
  ∃ batch,
    d_category d ∈ cats ∧
    filter (λ x, sr_category_id x = category_id (d_category d)) srs !! 0
      = Some batch ∧
    d_items d = take ITEMS_BY_CAROUSEL
                  (filter (λ x, item_domain_id x = JStr (domain_id (d_category d)))
                          (sr_results batch)).
Proof.
  intros Hc Hd. apply (collect_elem _ _ _ d) in Hc.
  apply Hc in Hd as (cat & ys & Hcat & Hdr & Hy).
  apply draft_inv in Hdr as (batch & Hb & ->).
  apply list_elem_of_singleton in Hy as ->; cbn. by exists batch.
Qed.

Lemma carousels_inv rd srs cats drafts cs c :
  collect (draft srs) cats = Ok drafts → collect (join rd) drafts = Ok cs →
  c ∈ cs →
  ∃ batch proposal,
    carousel_category c ∈ cats ∧
    filter (λ x, sr_category_id x = c_category_id c) srs !! 0 = Some batch ∧
    c_items c = take ITEMS_BY_CAROUSEL
                  (filter (λ x, item_domain_id x = JStr (c_domain_id c))
                          (sr_results batch)) ∧
    filter (λ x, name x = c_category_raw c) (categories rd) !! 0
      = Some proposal ∧
    c_questions c = questions proposal.
Proof.
  intros Hd Hc Hin. apply (collect_elem _ _ _ c) in Hc.
  apply Hc in Hin as (d & ys & Hdin & Hj & Hy).
  apply join_inv in Hj as (proposal & Hp & ->).
  apply list_elem_of_singleton in Hy as ->.
  destruct (drafts_inv _ _ _ _ Hd Hdin) as (batch & Hcat & Hb & Hitems).
  exists batch, proposal. unfold carousel_category; cbn.
  by destruct (d_category d).
Qed.

(** With a batch for every resolved id, steps 5 and 6 find what they
    look up, and give one carousel per resolved category, in order. *)
Lemma assembly_ok rd cats srs :
  outcome (match_categories w rd) = Ok cats →
  outcome (fetch_listings w cats) = Ok srs →
  ∃ drafts cs,
    collect (draft srs) cats = Ok drafts ∧
    collect (join rd) drafts = Ok cs ∧
    map carousel_category cs = cats.
Proof.
  intros Hcats Hsrs.
  destruct (collect_ok (draft srs) cats) as [drafts Hd].
  { intros c Hc. destruct (fetched_batch w _ _ _ Hsrs Hc) as (batch & Hb & Hid).
    by apply (draft_ok _ _ batch). }
  destruct (collect_ok (join rd) drafts) as [cs Hcs].
  { intros d Hdin. destruct (drafts_inv _ _ _ _ Hd Hdin) as (_ & Hc & _).
    destruct (resolved_from_plan w _ _ _ Hcats Hc) as (proposal & Hp & Hn & _).
    by apply (join_ok _ _ proposal). }
  exists drafts, cs. split; [done|]. split; [done|].
  assert (Forall2 (λ cat d, d_category d = cat) cats drafts) as H1.
  { apply (collect_singletons (draft srs)); [|done].
    intros cat ys (batch & _ & ->)%draft_inv. eauto. }
  assert (Forall2 (λ d c, carousel_category c = d_category d) drafts cs) as H2.
  { apply (collect_singletons (join rd)); [|done].
    intros d ys (proposal & _ & ->)%join_inv. eexists; split; [done|].
    unfold carousel_category; cbn. by destruct (d_category d). }
  clear -H1 H2. revert cs H2.
  induction H1 as [|cat d cats drafts Hd _ IH]; intros cs H2.
  - by inversion H2.
  - inversion H2 as [|? c ? cs' Hc Hcs]; subst; cbn.
    by rewrite Hc, (IH cs' Hcs).
Qed.

Lemma completes input rd cats :
  planner w input = Ok rd →
  outcome (match_categories w rd) = Ok cats →
  Forall (λ c, listing_fetch_fails w (category_id c) = false) cats →
  ∃ resp, outcome (chat w input) = Ok resp
          ∧ map carousel_category (r_carousels resp) = cats.
Proof.
  intros Hp Hcats Hok.
  destruct (collect_ok (fetch w) (set_iter (set_order w) (map category_id cats)))
    as [srs Hsrs].
  { intros cid (c & -> & Hc)%set_iter_elem%list_elem_of_fmap.
    rewrite Forall_forall in Hok. specialize (Hok c Hc).
    unfold listing_fetch_fails in Hok. destruct (fetch w (category_id c)); eauto.
    discriminate. }
  rewrite <- fetch_listings_outcome in Hsrs.
  destruct (assembly_ok _ _ _ Hcats Hsrs) as (drafts & cs & Hd & Hcs & Hmap).
  exists {| r_message := message rd; r_carousels := cs |}. split; [|done].
  rewrite chat_outcome, Hp, Result_ok_bind, pipeline_outcome, Hcats,
    Result_ok_bind, Hsrs, Result_ok_bind, build_carousels_outcome, Hd,
    Result_ok_bind, join_questions_outcome, Hcs. reflexivity.
Qed.

(** The listing search is not guarded: its exception ends the request. *)
Lemma aborts input rd cats c :
  planner w input = Ok rd →
  outcome (match_categories w rd) = Ok cats →
  c ∈ cats → listing_fetch_fails w (category_id c) = true →
  ∃ cid e, cid ∈ map category_id cats ∧ fetch w cid = Err e
           ∧ outcome (chat w input) = Err e.
Proof.
  intros Hp Hcats Hc Hfail. unfold listing_fetch_fails in Hfail.
  destruct (fetch w (category_id c)) as [|e] eqn:Hf; [discriminate|].
  destruct (collect_err (fetch w) (set_iter (set_order w) (map category_id cats))
              (category_id c) e) as (cid & e' & Hcid & Hf' & Hcol); [|done|].
  { apply set_iter_elem, list_elem_of_fmap. eauto. }
  exists cid, e'. split; [by apply set_iter_elem in Hcid|]. split; [done|].
  rewrite chat_outcome, Hp, Result_ok_bind, pipeline_outcome, Hcats,
    Result_ok_bind, fetch_listings_outcome, Hcol. reflexivity.
Qed.

End Requests.

(** ** The listing mapping *)

(** C9: a raw search result with an ["id"] maps to a listing whose
    [item_id] is that id and whose five other fields are the raw values
    where the result has them and the empty string where it has not; no
    exception is raised for a field that is missing. *)
Theorem to_listing_defaults (fields : list (string * json)) (id : json) :
  dict_get "id" fields = Some id →
  to_listing (JObj fields) = Ok
    {| item_id := id;
       title := default (JStr "") (dict_get "title" fields);
       permalink := default (JStr "") (dict_get "permalink" fields);
       thumbnail := default (JStr "") (dict_get "thumbnail" fields);
       item_category_id := default (JStr "") (dict_get "category_id" fields);
       item_domain_id := default (JStr "") (dict_get "domain_id" fields) |}.
Proof.
  intros Hid. unfold to_listing, get_or_empty. rewrite Hid.
  by destruct (dict_get "title" fields), (dict_get "permalink" fields),
    (dict_get "thumbnail" fields), (dict_get "category_id" fields),
    (dict_get "domain_id" fields).
Qed.

Lemma to_listing_defaults_witness :
  to_listing (JObj [("id", JStr "MLA1"); ("title", JStr "Licuadora")]) = Ok
    {| item_id := JStr "MLA1";
       title := JStr "Licuadora";
       permalink := JStr "";
       thumbnail := JStr "";
       item_category_id := JStr "";
       item_domain_id := JStr "" |}.
Proof.
  exact (to_listing_defaults
           [("id", JStr "MLA1"); ("title", JStr "Licuadora")] (JStr "MLA1")
           eq_refl).
Defined.

(** ** The carousels of a response *)

Section Carousels.

Variable w : World.

Lemma filter_none {A} (P : A → Prop) `{!∀ x, Decision (P x)} (l : list A) :
  (∀ y, y ∈ l → ¬ P y) → filter P l = [].
Proof.
  intros Hl. destruct (filter P l) as [|y ys] eqn:Hf; [done|].
  assert (y ∈ filter P l) as [Hy Hin]%list_elem_of_filter by (rewrite Hf; left).
  by destruct (Hl y).
Qed.

Lemma filter_key_unique {A} (f : A → string) (l : list A) (x : A) :
  NoDup (map f l) → x ∈ l → filter (λ y, f y = f x) l = [x].
Proof.
  induction l as [|a l IH]; intros Hnd Hx; [by apply elem_of_nil in Hx|].
  cbn [map] in Hnd. apply NoDup_cons in Hnd as [Ha Hl].
  apply elem_of_cons in Hx as [->|Hx].
  - rewrite filter_cons_True by done. f_equal.
    apply filter_none. intros y Hy Hfy. apply Ha.
    rewrite <- Hfy. apply list_elem_of_fmap. eauto.
  - rewrite filter_cons_False; [by apply IH|].
    intros Hfa. apply Ha. rewrite Hfa. apply list_elem_of_fmap. eauto.
Qed.

(** A batch of a completed step 4 is what one round builds for its id,
    and the only batch with that id. *)
Lemma batch_inv cats srs batch :
  outcome (fetch_listings w cats) = Ok srs → batch ∈ srs →
  outcome (fetch_step w [] (sr_category_id batch)) = Ok [batch] ∧
  filter (λ x, sr_category_id x = sr_category_id batch) srs = [batch].
Proof.
  intros Hsrs Hb. split.
  - rewrite fetch_listings_outcome in Hsrs.
    apply (collect_elem _ _ _ batch) in Hsrs.
    apply Hsrs in Hb as (cid & ys & _ & Hf & Hy).
    destruct (fetch_inv _ _ _ Hf) as [results ->].
    apply list_elem_of_singleton in Hy as ->. exact Hf.
  - apply filter_key_unique; [|done].
    rewrite (fetched_ids _ _ _ Hsrs). apply set_iter_NoDup.
Qed.

(** C2: the items of a carousel are the listings of the batch fetched for
    the carousel's category id (the one batch of the request with that
    id), kept in order where their domain id is the carousel's, and cut
    after [ITEMS_BY_CAROUSEL] = 5 of them; so they are a subsequence of
    that batch, at most five, all of the carousel's domain. *)
Theorem carousel_items (input : string) (resp : Response) (c : Carousel) :
  outcome (chat w input) = Ok resp → c ∈ r_carousels resp →
  ∃ rd cats srs batch,
    planner w input = Ok rd ∧
    outcome (match_categories w rd) = Ok cats ∧
    outcome (fetch_listings w cats) = Ok srs ∧
    filter (λ b, sr_category_id b = c_category_id c) srs = [batch] ∧
    outcome (fetch_step w [] (c_category_id c)) = Ok [batch] ∧
    sr_category_id batch = c_category_id c ∧
    c_items c = take ITEMS_BY_CAROUSEL
                  (filter (λ x, item_domain_id x = JStr (c_domain_id c))
                          (sr_results batch)) ∧
    c_items c `sublist_of` sr_results batch ∧
    (length (c_items c) ≤ 5)%nat ∧
    Forall (λ x, item_domain_id x = JStr (c_domain_id c)) (c_items c).
Proof.
  intros (rd & cats & srs & drafts & Hp & Hcats & Hsrs & Hd & Hcs & _)%chat_ok_inv
    Hc.
  destruct (carousels_inv _ _ _ _ _ _ Hd Hcs Hc)
    as (batch & _ & _ & Hb & Hitems & _).
  apply list_elem_of_lookup_2, list_elem_of_filter in Hb as [Hid Hb].
  destruct (batch_inv _ _ _ Hsrs Hb) as [Hfetch Huniq].
  exists rd, cats, srs, batch. rewrite <- Hid.
  do 7 (split; [done|]). rewrite Hitems. split; [|split].
  - etrans; [apply sublist_take|apply sublist_filter].
  - apply firstn_le_length.
  - apply Forall_take, Forall_forall. by intros x [? _]%list_elem_of_filter.
Qed.

(** C3: the questions of a carousel are the questions of the proposal of
    the plan whose name is the carousel's [category_raw], the first one
    in the plan when several proposals have that name. *)
Theorem carousel_questions (input : string) (rd : BuyAssistantResponse)
    (resp : Response) (c : Carousel) :
  planner w input = Ok rd →
  outcome (chat w input) = Ok resp → c ∈ r_carousels resp →
  ∃ proposal,
    proposal ∈ categories rd ∧
    name proposal = c_category_raw c ∧
    c_questions c = questions proposal ∧
    head (filter (λ x, name x = c_category_raw c) (categories rd)) = Some proposal.
Proof.
  intros Hp (rd' & cats & srs & drafts & Hp' & _ & _ & Hd & Hcs & _)%chat_ok_inv Hc.
  assert (rd' = rd) as -> by congruence.
  destruct (carousels_inv _ _ _ _ _ _ Hd Hcs Hc)
    as (_ & proposal & _ & _ & _ & Hprop & Hq).
  exists proposal. rewrite head_lookup.
  pose proof (list_elem_of_lookup_2 _ _ _ Hprop) as [Hn Hin]%list_elem_of_filter.
  done.
Qed.

(** C7: for the categories step 3 resolved and the batches step 4 built
    for them, neither lookup of the assembly fails: every resolved
    category has a batch with its id and a proposal with its raw name, and
    steps 5 and 6 end without an exception. *)
Theorem lookups_succeed (rd : BuyAssistantResponse) (cats : list Category)
    (srs : list SearchResult) :
  outcome (match_categories w rd) = Ok cats →
  outcome (fetch_listings w cats) = Ok srs →
  (∀ c, c ∈ cats →
     (∃ batch, index (filter (λ x, sr_category_id x = category_id c) srs) 0
               = Ok batch) ∧
     (∃ proposal, index (filter (λ x, name x = category_raw c) (categories rd)) 0
                  = Ok proposal)) ∧
  ∃ drafts carousels,
    outcome (build_carousels cats srs) = Ok drafts ∧
    outcome (join_questions rd drafts) = Ok carousels.
Proof.
  intros Hcats Hsrs. split.
  - intros c Hc. split.
    + destruct (fetched_batch w _ _ _ Hsrs Hc) as (batch & Hb & Hid).
      destruct (draft_ok srs c batch Hb Hid) as [ys Hdr].
      apply draft_inv in Hdr as (b & Hlook & _).
      exists b. unfold index. by rewrite Hlook.
    + destruct (resolved_from_plan w _ _ _ Hcats Hc) as (proposal & Hp & Hn & _).
      destruct (join_ok rd {| d_items := []; d_category := c |} proposal Hp Hn)
        as [ys Hj].
      apply join_inv in Hj as (p & Hlook & _). cbn [d_category] in Hlook.
      exists p. unfold index. by rewrite Hlook.
  - destruct (assembly_ok w _ _ _ Hcats Hsrs) as (drafts & cs & Hd & Hcs & _).
    exists drafts, cs.
    by rewrite build_carousels_outcome, join_questions_outcome.
Qed.

End Carousels.

(** ** The rounds a loop runs *)

Section RoundsRun.

Context {A B : Type} (g : A → Result (list B)).

Lemma collect_ext (g' : A → Result (list B)) xs :
  (∀ x, x ∈ xs → g x = g' x) → collect g xs = collect g' xs.
Proof.
  induction xs as [|x xs IH]; intros Hg; cbn; [done|].
  rewrite (Hg x) by left. rewrite IH; [done|]. intros; apply Hg; by right.
Qed.

Lemma rounds_ok xs yss : collect g xs = Ok yss → rounds g xs = xs.
Proof.
  revert yss; induction xs as [|x xs IH]; cbn; intros yss Hc; [done|].
  destruct (g x) as [ys|e]; cbn in Hc; [|discriminate].
  destruct (collect g xs) as [yss'|e]; cbn in Hc; [|discriminate].
  by rewrite (IH yss').
Qed.

Lemma rounds_err xs e :
  collect g xs = Err e →
  ∃ xs1 x xs2, xs = xs1 ++ x :: xs2 ∧ rounds g xs = xs1 ++ [x] ∧ g x = Err e.
Proof.
  induction xs as [|x xs IH]; cbn; intros Hc; [discriminate|].
  destruct (g x) as [ys|e0] eqn:Hg; cbn in Hc.
  - destruct (collect g xs) as [yss'|e1]; cbn in Hc; [discriminate|].
    injection Hc as ->. destruct (IH eq_refl) as (xs1 & x' & xs2 & -> & -> & Hg').
    by exists (x :: xs1), x', xs2.
  - injection Hc as ->. by exists [], x, xs.
Qed.

Lemma collect_first_err xs e :
  collect g xs = Err e →
  ∃ xs1 x xs2,
    xs = xs1 ++ x :: xs2 ∧ Forall (λ y, ∃ ys, g y = Ok ys) xs1 ∧ g x = Err e.
Proof.
  induction xs as [|x xs IH]; cbn; intros Hc; [discriminate|].
  destruct (g x) as [ys|e0] eqn:Hg; cbn in Hc.
  - destruct (collect g xs) as [yss'|e1]; cbn in Hc; [discriminate|].
    injection Hc as ->. destruct (IH eq_refl) as (xs1 & x' & xs2 & -> & Hok & Hg').
    exists (x :: xs1), x', xs2. split; [done|]. split; [|done].
    constructor; eauto.
  - injection Hc as ->. exists [], x, xs. split; [done|]. split; [constructor|done].
Qed.

Lemma rounds_stop xs1 x xs2 e :
  g x = Err e → rounds g (xs1 ++ x :: xs2) `sublist_of` xs1 ++ [x].
Proof.
  intros Hx. induction xs1 as [|a xs1 IH]; cbn [app rounds].
  - by rewrite Hx.
  - destruct (g a); [by apply sublist_skip|].
    apply sublist_skip, sublist_nil_l.
Qed.

Lemma rounds_first xs1 x xs2 e :
  Forall (λ y, ∃ ys, g y = Ok ys) xs1 → g x = Err e →
  rounds g (xs1 ++ x :: xs2) = xs1 ++ [x].
Proof.
  intros Hok Hx. induction Hok as [|a xs1 [ys Ha] _ IH]; cbn [app rounds].
  - by rewrite Hx.
  - by rewrite Ha, IH.
Qed.

Lemma rounds_sublist xs : rounds g xs `sublist_of` xs.
Proof.
  induction xs as [|x xs IH]; cbn; [done|].
  destruct (g x); [by apply sublist_skip|].
  apply sublist_skip, sublist_nil_l.
Qed.

End RoundsRun.

(** ** The trace of a loop *)

Section Traces.

Context {A B : Type} (step : list B → A → M (list B)).
Hypothesis Happ : appends step.

Lemma for_each_trace xs acc :
  trace (for_each step acc xs)
  = concat (map (λ x, trace (step [] x)) (rounds (λ x, outcome (step [] x)) xs)).
Proof.
  revert acc; induction xs as [|x xs IH]; intros acc; cbn [for_each rounds].
  - reflexivity.
  - pose proof (appends_outcome step Happ acc x) as Ho.
    destruct (outcome (step [] x)) as [ys|e]; cbn in Ho.
    + rewrite (trace_bind_ok _ _ _ Ho), (appends_trace step Happ), IH.
      reflexivity.
    + rewrite (trace_bind_err _ _ _ Ho), (appends_trace step Happ); cbn.
      by rewrite app_nil_r.
Qed.

End Traces.

(** ** The requests of step 4 *)

Section FetchTrace.

Variable w : World.

Lemma search_url_inj cid cid' : search_url cid = search_url cid' → cid = cid'.
Proof.
  unfold search_url.
  generalize "http://api.mercadolibre.com/sites/MLA/search?limit=50&sort=relevance&category=".
  intros pre; induction pre as [|ch pre IH]; cbn; [done|].
  intros [= H]. by apply IH.
Qed.

Lemma fetch_listings_trace cats :
  trace (fetch_listings w cats)
  = Log INFO "4. Calling Search API for each MeLi category" []
    :: map (λ cid, HttpGet (search_url cid))
           (rounds (fetch w) (set_iter (set_order w) (map category_id cats))).
Proof.
  unfold fetch_listings.
  rewrite (trace_bind_ok _ _ tt) by reflexivity. cbn [logging_info emit trace fst].
  rewrite (for_each_trace _ (fetch_step_appends w)). cbn [app]. f_equal.
  change (λ x, outcome (fetch_step w [] x)) with (fetch w).
  generalize (rounds (fetch w) (set_iter (set_order w) (map category_id cats))).
  intros ids. induction ids as [|cid ids IH]; cbn [map concat]; [done|].
  rewrite fetch_step_trace, IH. reflexivity.
Qed.

Lemma requests_of_fetches cid ids :
  requests_of (search_url cid) (map (λ cid', HttpGet (search_url cid')) ids)
  = length (filter (λ cid', cid' = cid) ids).
Proof.
  unfold requests_of. induction ids as [|cid' ids IH]; cbn [map]; [done|].
  destruct (decide (cid' = cid)) as [->|Hne].
  - rewrite !filter_cons_True by done. cbn [length]. by rewrite IH.
  - rewrite !filter_cons_False; [done|done|].
    intros [= Heq]. by apply Hne, search_url_inj.
Qed.

Lemma count_NoDup (cid : string) ids :
  NoDup ids →
  length (filter (λ cid', cid' = cid) ids) = if decide (cid ∈ ids) then 1 else 0.
Proof.
  induction ids as [|cid' ids IH]; [done|].
  intros [Hnotin Hnd]%NoDup_cons. specialize (IH Hnd).
  destruct (decide (cid' = cid)) as [->|Hne].
  - rewrite filter_cons_True by done. cbn [length]. rewrite IH.
    rewrite decide_False by done. rewrite decide_True by left. done.
  - rewrite filter_cons_False by done. rewrite IH.
    destruct (decide (cid ∈ ids)) as [Hin|Hout].
    + rewrite decide_True; [done|by right].
    + rewrite decide_False; [done|].
      intros [->|?]%elem_of_cons; done.
Qed.

End FetchTrace.

Example sweeping_run :
  outcome (chat Market.world "quiero barrer") = Err ConnectionError.
Proof. vm_compute. reflexivity. Qed.

Lemma carousel_items_witness :
  ∃ rd cats srs batch,
    planner Market.world "necesito equipar mi cocina" = Ok rd ∧
    outcome (match_categories Market.world rd) = Ok cats ∧
    outcome (fetch_listings Market.world cats) = Ok srs ∧
    filter (λ b, sr_category_id b = c_category_id Market.blenders_carousel) srs
      = [batch] ∧
    outcome (fetch_step Market.world [] (c_category_id Market.blenders_carousel))
      = Ok [batch] ∧
    sr_category_id batch = c_category_id Market.blenders_carousel ∧
    c_items Market.blenders_carousel
      = take ITEMS_BY_CAROUSEL
          (filter (λ x, item_domain_id x
                        = JStr (c_domain_id Market.blenders_carousel))
                  (sr_results batch)) ∧
    c_items Market.blenders_carousel `sublist_of` sr_results batch ∧
    (length (c_items Market.blenders_carousel) ≤ 5)%nat ∧
    Forall (λ x, item_domain_id x = JStr (c_domain_id Market.blenders_carousel))
           (c_items Market.blenders_carousel).
Proof.
  apply (carousel_items Market.world "necesito equipar mi cocina"
           Market.kitchen_response Market.blenders_carousel).
  - vm_compute. reflexivity.
  - left.
Defined.

Lemma carousel_questions_witness :
  ∃ proposal,
    proposal ∈ categories Market.kitchen_plan ∧
    name proposal = c_category_raw Market.blenders_carousel ∧
    c_questions Market.blenders_carousel = questions proposal ∧
    head (filter (λ x, name x = c_category_raw Market.blenders_carousel)
                 (categories Market.kitchen_plan)) = Some proposal.
Proof.
  apply (carousel_questions Market.world "necesito equipar mi cocina"
           Market.kitchen_plan Market.kitchen_response Market.blenders_carousel).
  - reflexivity.
  - vm_compute. reflexivity.
  - left.
Defined.

Lemma lookups_succeed_witness :
  (∀ c, c ∈ [Market.blenders] →
     (∃ batch,
        index (filter (λ x, sr_category_id x = category_id c)
                 [ {| sr_category_id := "123";
                      sr_results := Market.blenders_listings |} ]) 0
        = Ok batch) ∧
     (∃ proposal,
        index (filter (λ x, name x = category_raw c)
                 (categories Market.kitchen_plan)) 0
        = Ok proposal)) ∧
  ∃ drafts carousels,
    outcome (build_carousels [Market.blenders]
               [ {| sr_category_id := "123";
                    sr_results := Market.blenders_listings |} ]) = Ok drafts ∧
    outcome (join_questions Market.kitchen_plan drafts) = Ok carousels.
Proof.
  apply (lookups_succeed Market.world Market.kitchen_plan [Market.blenders]
           [ {| sr_category_id := "123";
                sr_results := Market.blenders_listings |} ]).
  - vm_compute. reflexivity.
  - vm_compute. reflexivity.
Defined.

(** ** Proposals that are dropped *)

Section Dropped.

Variable w : World.

(** Every carousel of a response is for a category that a round of step
    3 appended. *)
Lemma carousel_resolved input resp c :
  outcome (chat w input) = Ok resp → c ∈ r_carousels resp →
  ∃ ys, resolve w (c_category_raw c) = Ok ys ∧ carousel_category c ∈ ys.
Proof.
  intros (rd & cats & srs & drafts & _ & Hcats & _ & Hd & Hcs & _)%chat_ok_inv Hc.
  destruct (carousels_inv _ _ _ _ _ _ Hd Hcs Hc) as (_ & _ & Hin & _).
  by destruct (resolved_from_plan w _ _ _ Hcats Hin) as (_ & _ & _ & Hys).
Qed.

(** A proposal for which the round of step 3 appends nothing is as good
    as absent from the plan. *)
Lemma dropped_proposal msg l1 p l2 :
  resolve w (name p) = Ok [] →
  outcome (pipeline w {| message := msg; categories := l1 ++ p :: l2 |})
  = outcome (pipeline w {| message := msg; categories := l1 ++ l2 |}).
Proof.
  intros Hres. set (rd1 := {| message := msg; categories := l1 ++ p :: l2 |}).
  set (rd2 := {| message := msg; categories := l1 ++ l2 |}).
  assert (outcome (match_categories w rd1) = outcome (match_categories w rd2))
    as Hm.
  { rewrite !match_categories_outcome. unfold rd1, rd2; cbn [categories].
    rewrite !map_app, !collect_app. cbn [map collect]. rewrite Hres.
    by rewrite Result_ok_bind, Result_bind_app_nil. }
  rewrite !pipeline_outcome, Hm.
  destruct (outcome (match_categories w rd2)) as [cats|e] eqn:Hcats; [|done].
  rewrite !Result_ok_bind.
  destruct (outcome (fetch_listings w cats)) as [srs|e]; [|done].
  rewrite !Result_ok_bind.
  destruct (outcome (build_carousels cats srs)) as [drafts|e] eqn:Hd; [|done].
  rewrite !Result_ok_bind.
  rewrite build_carousels_outcome in Hd.
  assert (outcome (join_questions rd1 drafts) = outcome (join_questions rd2 drafts))
    as ->; [|done].
  rewrite !join_questions_outcome. apply collect_ext. intros d Hdin.
  destruct (drafts_inv _ _ _ _ Hd Hdin) as (_ & Hc & _).
  destruct (resolved_from_plan w _ _ _ Hcats Hc) as (_ & _ & _ & ys & Hys & Hin).
  assert (name p ≠ category_raw (d_category d)) as Hne.
  { intros Heq. rewrite <- Heq, Hres in Hys. injection Hys as <-.
    by apply elem_of_nil in Hin. }
  unfold join, join_step, rd1, rd2; cbn [categories].
  by rewrite !filter_app, filter_cons_False.
Qed.

(** Step 3 before, at and after a proposal whose round ends with the
    warning. *)
Lemma match_categories_around msg l1 p l2 :
  (∀ acc, match_step w acc (name p)
          = ([SimilaritySearch (name p) 1;
              Log WARNING "Category not matched for:" [name p]], Ok acc)) →
  match_categories w {| message := msg; categories := l1 ++ p :: l2 |}
  = (cats1 ← match_categories w {| message := msg; categories := l1 |};
     emit (SimilaritySearch (name p) 1);;
     logging_warning "Category not matched for:" (name p);;
     for_each (match_step w) cats1 (map name l2)).
Proof.
  intros Hround. unfold match_categories; cbn [categories].
  rewrite map_app; cbn [map]. rewrite for_each_app, M_bind_assoc.
  apply M_bind_ext; intros _. apply M_bind_ext; intros cats1.
  cbn [for_each]. rewrite Hround.
  destruct (for_each (match_step w) cats1 (map name l2)) as [t r] eqn:Hrest.
  unfold logging_warning, emit; cbn. by rewrite Hrest.
Qed.

Lemma chat_trace_step3 input rd :
  planner w input = Ok rd →
  ∃ t, trace (chat w input)
       = trace (plan w input) ++ trace (match_categories w rd) ++ t.
Proof.
  intros Hp. unfold chat. rewrite trace_bind, plan_outcome, Hp.
  cbn [mbind Result_bind]. unfold pipeline. rewrite trace_bind. eauto.
Qed.

(** C6: when the nearest-neighbour query for a proposal returns nothing,
    the round logs a warning and leaves the accumulated categories as they
    are, without an exception. Step 3 of the request is then: the rounds of
    the proposals before it, the query and the warning for it, and the
    rounds of the proposals after it on the categories accumulated before
    it; the trace of the request holds the trace of that step 3. The
    request ends as if the proposal were not in the plan, and no carousel
    of the response is for it. *)
Theorem unmatched_proposal_dropped (input msg : string)
    (l1 : list CategoryResponse) (p : CategoryResponse)
    (l2 : list CategoryResponse) :
  planner w input = Ok {| message := msg; categories := l1 ++ p :: l2 |} →
  similarity_search_with_score w (name p) = Ok [] →
  (∀ acc, match_step w acc (name p)
          = ([SimilaritySearch (name p) 1;
              Log WARNING "Category not matched for:" [name p]], Ok acc)) ∧
  match_categories w {| message := msg; categories := l1 ++ p :: l2 |}
  = (cats1 ← match_categories w {| message := msg; categories := l1 |};
     emit (SimilaritySearch (name p) 1);;
     logging_warning "Category not matched for:" (name p);;
     for_each (match_step w) cats1 (map name l2)) ∧
  (∃ t, trace (chat w input)
        = trace (plan w input)
          ++ trace (match_categories w
                      {| message := msg; categories := l1 ++ p :: l2 |})
          ++ t) ∧
  outcome (chat w input)
  = outcome (pipeline w {| message := msg; categories := l1 ++ l2 |}) ∧
  (∀ resp c, outcome (chat w input) = Ok resp → c ∈ r_carousels resp →
             c_category_raw c ≠ name p).
Proof.
  intros Hp Hs.
  assert (resolve w (name p) = Ok []) as Hres.
  { unfold resolve. by rewrite match_step_empty. }
  split; [intros acc; by apply match_step_empty|].
  split; [apply match_categories_around; intros acc; by apply match_step_empty|].
  split; [by apply chat_trace_step3|]. split.
  - rewrite chat_outcome, Hp, Result_ok_bind. by apply dropped_proposal.
  - intros resp c Hresp Hc Heq.
    destruct (carousel_resolved _ _ _ Hresp Hc) as (ys & Hys & Hin).
    rewrite Heq, Hres in Hys. injection Hys as <-. by apply elem_of_nil in Hin.
Qed.

(** C10: when the query returns a result whose descriptor has fewer than
    eight lines, reading the positional fields raises the [IndexError]
    that the handler of the empty result catches: the round does what it
    does for an empty result, the request goes on as if the proposal were
    not in the plan, and no carousel of the response is for it. *)
Theorem malformed_descriptor_dropped (input msg : string)
    (l1 : list CategoryResponse) (p : CategoryResponse)
    (l2 : list CategoryResponse) (doc : Document) (s : float)
    (rest : list (Document * float)) :
  planner w input = Ok {| message := msg; categories := l1 ++ p :: l2 |} →
  similarity_search_with_score w (name p) = Ok ((doc, s) :: rest) →
  length (PyStr.split PyStr.LF (page_content doc)) < 8 →
  (∀ acc, match_step w acc (name p)
          = ([SimilaritySearch (name p) 1;
              Log WARNING "Category not matched for:" [name p]], Ok acc)) ∧
  outcome (chat w input)
  = outcome (pipeline w {| message := msg; categories := l1 ++ l2 |}) ∧
  (∀ resp c, outcome (chat w input) = Ok resp → c ∈ r_carousels resp →
             c_category_raw c ≠ name p).
Proof.
  intros Hp Hs Hlen.
  assert (resolve w (name p) = Ok []) as Hres.
  { unfold resolve. by rewrite (match_step_short w _ _ doc s rest). }
  split; [intros acc; by apply (match_step_short w _ _ doc s rest)|]. split.
  - rewrite chat_outcome, Hp, Result_ok_bind. by apply dropped_proposal.
  - intros resp c Hresp Hc Heq.
    destruct (carousel_resolved _ _ _ Hresp Hc) as (ys & Hys & Hin).
    rewrite Heq, Hres in Hys. injection Hys as <-. by apply elem_of_nil in Hin.
Qed.

End Dropped.

(** A proposal that matches nothing between two that resolve: the
    store is queried for each of the three in turn, the warning follows the
    second query, and one request serves both carousels. *)
Example pantry_run :
  chat Pantry.world "licuadora, olla y vaso"
  = ([Log INFO "1. Building the prompt" [];
      Log INFO "2. Calling the chat and parsing the response" [];
      PlannerCall "licuadora, olla y vaso";
      Log INFO "3. Matching with MeLi categories" [];
      SimilaritySearch "Licuadoras" 1;
      SimilaritySearch "Ollas" 1;
      Log WARNING "Category not matched for:" ["Ollas"];
      SimilaritySearch "Licuadoras de vaso" 1;
      Log INFO "4. Calling Search API for each MeLi category" [];
      HttpGet (search_url "123");
      Log INFO "5. Building the carousels" [];
      Log INFO "6. Joining carousels with category questions" []],
     Ok Pantry.pantry_response).
Proof. vm_compute. reflexivity. Qed.

Lemma unmatched_proposal_dropped_witness :
  (∀ acc, match_step Pantry.world acc (name Market.ollas)
          = ([SimilaritySearch (name Market.ollas) 1;
              Log WARNING "Category not matched for:" [name Market.ollas]],
             Ok acc)) ∧
  match_categories Pantry.world
    {| message := "Hola, te ayudo con la cocina";
       categories := [Market.licuadoras] ++ Market.ollas :: [Pantry.vasos] |}
  = (cats1 ← match_categories Pantry.world
               {| message := "Hola, te ayudo con la cocina";
                  categories := [Market.licuadoras] |};
     emit (SimilaritySearch (name Market.ollas) 1);;
     logging_warning "Category not matched for:" (name Market.ollas);;
     for_each (match_step Pantry.world) cats1 (map name [Pantry.vasos])) ∧
  (∃ t, trace (chat Pantry.world "licuadora, olla y vaso")
        = trace (plan Pantry.world "licuadora, olla y vaso")
          ++ trace (match_categories Pantry.world
                      {| message := "Hola, te ayudo con la cocina";
                         categories := [Market.licuadoras] ++ Market.ollas
                                       :: [Pantry.vasos] |})
          ++ t) ∧
  outcome (chat Pantry.world "licuadora, olla y vaso")
  = outcome (pipeline Pantry.world
               {| message := "Hola, te ayudo con la cocina";
                  categories := [Market.licuadoras] ++ [Pantry.vasos] |}) ∧
  Forall (λ c, c_category_raw c ≠ name Market.ollas)
         (r_carousels Pantry.pantry_response).
Proof.
  destruct (unmatched_proposal_dropped Pantry.world "licuadora, olla y vaso"
              "Hola, te ayudo con la cocina"
              [Market.licuadoras] Market.ollas [Pantry.vasos])
    as (Hround & Hstep & Htrace & Hout & Hnone).
  - reflexivity.
  - reflexivity.
  - do 4 (split; [assumption|]). apply Forall_forall. intros c Hc.
    apply (Hnone Pantry.pantry_response c); [vm_compute; reflexivity|exact Hc].
Defined.

Lemma malformed_descriptor_dropped_witness :
  (∀ acc, match_step Market.world acc (name Market.batidoras)
          = ([SimilaritySearch (name Market.batidoras) 1;
              Log WARNING "Category not matched for:" [name Market.batidoras]],
             Ok acc)) ∧
  outcome (chat Market.world "quiero hacer tortas")
  = outcome (pipeline Market.world
               {| message := "Hola, te ayudo con la reposteria";
                  categories := [Market.licuadoras] ++ [] |}) ∧
  (∀ resp c,
     outcome (chat Market.world "quiero hacer tortas") = Ok resp →
     c ∈ r_carousels resp → c_category_raw c ≠ name Market.batidoras).
Proof.
  apply (malformed_descriptor_dropped Market.world "quiero hacer tortas"
           "Hola, te ayudo con la reposteria"
           [Market.licuadoras] Market.batidoras []
           {| page_content := "Batidoras de mano" |} 0.75%float []).
  - reflexivity.
  - reflexivity.
  - vm_compute. lia.
Defined.

(** ** The score of a match *)

(** C8, as amended: for a query result whose first descriptor has at least
    eight lines, the round appends the category read off lines 4, 5 and 7
    with the returned score, whatever that score is: no threshold is
    applied to it. *)
Theorem no_score_threshold (w : World) (acc : list Category) (category : string)
    (doc : Document) (s : float) (rest : list (Document * float)) :
  similarity_search_with_score w category = Ok ((doc, s) :: rest) →
  (8 ≤ length (PyStr.split PyStr.LF (page_content doc)))%nat →
  ∃ line4 line5 line7,
    PyStr.split PyStr.LF (page_content doc) !! 4 = Some line4 ∧
    PyStr.split PyStr.LF (page_content doc) !! 5 = Some line5 ∧
    PyStr.split PyStr.LF (page_content doc) !! 7 = Some line7 ∧
    outcome (match_step w acc category) = Ok (acc ++ [
      {| category_raw := category;
         category_id := PyStr.replace_with_empty "CATEGORY_ID_L3: " line4;
         category_name := PyStr.replace_with_empty "CATEGORY_NAME_L3: " line5;
         domain_id := PyStr.replace_with_empty "DOMAIN_ID: " line7;
         similarity_score := s |} ]).
Proof.
  intros Hs Hlen.
  destruct (lookup_lt_is_Some_2 (PyStr.split PyStr.LF (page_content doc)) 4)
    as [line4 H4]; [lia|].
  destruct (lookup_lt_is_Some_2 (PyStr.split PyStr.LF (page_content doc)) 5)
    as [line5 H5]; [lia|].
  destruct (lookup_lt_is_Some_2 (PyStr.split PyStr.LF (page_content doc)) 7)
    as [line7 H7]; [lia|].
  exists line4, line5, line7. split; [done|]. split; [done|]. split; [done|].
  unfold match_step, match_try, try_except_IndexError, logging_warning.
  rewrite Hs; cbn. unfold index. rewrite H4; cbn. rewrite H5; cbn.
  rewrite H7; cbn. reflexivity.
Qed.

Lemma no_score_threshold_witness :
  ∃ line4 line5 line7,
    PyStr.split PyStr.LF
      (page_content (Market.descriptor "123" "Licuadoras" "MLA-BLENDERS")) !! 4
      = Some line4 ∧
    PyStr.split PyStr.LF
      (page_content (Market.descriptor "123" "Licuadoras" "MLA-BLENDERS")) !! 5
      = Some line5 ∧
    PyStr.split PyStr.LF
      (page_content (Market.descriptor "123" "Licuadoras" "MLA-BLENDERS")) !! 7
      = Some line7 ∧
    outcome (match_step Market.world [] "Licuadoras") = Ok ([] ++ [
      {| category_raw := "Licuadoras";
         category_id := PyStr.replace_with_empty "CATEGORY_ID_L3: " line4;
         category_name := PyStr.replace_with_empty "CATEGORY_NAME_L3: " line5;
         domain_id := PyStr.replace_with_empty "DOMAIN_ID: " line7;
         similarity_score := 0.25%float |} ]).
Proof.
  apply (no_score_threshold Market.world [] "Licuadoras"
           (Market.descriptor "123" "Licuadoras" "MLA-BLENDERS") 0.25%float []).
  - reflexivity.
  - vm_compute. lia.
Defined.

(** A non-empty result that is not accepted: the descriptor matched by
    "Batidoras" has one line. *)
Lemma match_rejected :
  similarity_search_with_score Market.world "Batidoras"
    = Ok [({| page_content := "Batidoras de mano" |}, 0.75%float)] ∧
  outcome (match_step Market.world [] "Batidoras") = Ok [] ∧
  ¬ accepts_every_match Market.world "Batidoras".
Proof.
  split; [reflexivity|]. split; [vm_compute; reflexivity|].
  intros H.
  destruct (H {| page_content := "Batidoras de mano" |} 0.75%float [] [] eq_refl)
    as (c & Hc & _).
  vm_compute in Hc. discriminate.
Qed.

(** ** A listing search that fails *)

Section Failures.

Variable w : World.

Lemma fails_iff cid :
  listing_fetch_fails w cid = false ↔ ∃ ys, fetch w cid = Ok ys.
Proof.
  unfold listing_fetch_fails. destruct (fetch w cid) as [ys|e]; split.
  - eauto.
  - done.
  - discriminate.
  - by intros [ys [=]].
Qed.

(** C1, as amended: when the listing search succeeds for every resolved
    category, the response has exactly one carousel per resolved category,
    in the order of the proposals, a category resolved twice getting two;
    when it fails for one of them, the request ends with the exception of
    the first search that fails, in the order in which the set of ids is
    gone through, and there is no response. *)
Theorem carousel_count (input : string) (rd : BuyAssistantResponse)
    (cats : list Category) :
  planner w input = Ok rd →
  outcome (match_categories w rd) = Ok cats →
  (Forall (λ c, listing_fetch_fails w (category_id c) = false) cats →
   ∃ resp,
     outcome (chat w input) = Ok resp ∧
     length (r_carousels resp) = length cats ∧
     map carousel_category (r_carousels resp) = cats) ∧
  (Exists (λ c, listing_fetch_fails w (category_id c) = true) cats →
   ∃ ids1 cid ids2 e,
     set_iter (set_order w) (map category_id cats) = ids1 ++ cid :: ids2 ∧
     Forall (λ x, listing_fetch_fails w x = false) ids1 ∧
     outcome (fetch_step w [] cid) = Err e ∧
     outcome (chat w input) = Err e).
Proof.
  intros Hp Hcats. split.
  - intros Hok. destruct (completes w _ _ _ Hp Hcats Hok) as (resp & Hr & Hmap).
    exists resp. split; [done|]. split; [|done].
    by rewrite <- (length_map carousel_category), Hmap.
  - intros (c & Hc & Hfail)%Exists_exists. unfold listing_fetch_fails in Hfail.
    destruct (fetch w (category_id c)) as [|e0] eqn:Hf0; [discriminate|].
    destruct (collect_err (fetch w)
                (set_iter (set_order w) (map category_id cats))
                (category_id c) e0) as (x & e & _ & _ & Hcol); [|done|].
    { apply set_iter_elem, list_elem_of_fmap. eauto. }
    destruct (collect_first_err _ _ _ Hcol) as (ids1 & cid & ids2 & Hids & Hok & Hf).
    exists ids1, cid, ids2, e. split; [done|]. split; [|split; [done|]].
    + eapply Forall_impl; [exact Hok|]. intros y Hy. by apply fails_iff.
    + rewrite chat_outcome, Hp, Result_ok_bind, pipeline_outcome, Hcats,
        Result_ok_bind, fetch_listings_outcome, Hcol. reflexivity.
Qed.

(** C4, as amended: when the listing search fails for a resolved category,
    the exception of a failed search ends the request: there is no
    response, and the last thing the request did is the request that
    failed, so nothing is logged about it and no later id is fetched. *)
Theorem failed_fetch_aborts (input : string) (rd : BuyAssistantResponse)
    (cats : list Category) (c : Category) :
  planner w input = Ok rd →
  outcome (match_categories w rd) = Ok cats →
  c ∈ cats → listing_fetch_fails w (category_id c) = true →
  ∃ cid e t,
    cid ∈ map category_id cats ∧
    outcome (fetch_step w [] cid) = Err e ∧
    outcome (chat w input) = Err e ∧
    trace (chat w input) = t ++ [HttpGet (search_url cid)].
Proof.
  intros Hp Hcats Hc Hfail. unfold listing_fetch_fails in Hfail.
  destruct (fetch w (category_id c)) as [|e0] eqn:Hf; [discriminate|].
  destruct (collect_err (fetch w) (set_iter (set_order w) (map category_id cats))
              (category_id c) e0) as (cid0 & e & _ & _ & Hcol); [|done|].
  { apply set_iter_elem, list_elem_of_fmap. eauto. }
  destruct (rounds_err _ _ _ Hcol) as (ids1 & cid & ids2 & Hids & Hrounds & Hcid).
  assert (outcome (fetch_listings w cats) = Err e) as Hfetch
    by by rewrite fetch_listings_outcome.
  assert (outcome (plan w input) = Ok rd) as Hplan
    by by rewrite plan_outcome, Hp.
  exists cid, e,
    (trace (plan w input) ++ trace (match_categories w rd)
     ++ Log INFO "4. Calling Search API for each MeLi category" []
        :: map (λ cid, HttpGet (search_url cid)) ids1).
  split; [|split; [done|split]].
  - apply (set_iter_elem (set_order w)). rewrite Hids.
    apply elem_of_app; right; left.
  - rewrite chat_outcome, Hp, Result_ok_bind, pipeline_outcome, Hcats,
      Result_ok_bind, Hfetch. reflexivity.
  - unfold chat. rewrite (trace_bind_ok _ _ _ Hplan). unfold pipeline.
    rewrite (trace_bind_ok _ _ _ Hcats), (trace_bind_err _ _ _ Hfetch).
    rewrite fetch_listings_trace, Hrounds, map_app. cbn [map].
    rewrite <- !app_assoc. reflexivity.
Qed.

(** C5, as amended: step 4 never requests an id twice and never requests
    an id that no category resolved to; when it completes, every distinct
    resolved id was requested exactly once and has exactly one batch. A
    request that fails ends the step with an exception: the ids after it
    in the iteration of the set are not requested at all, and when it is
    the first to fail the requests made are exactly those of the ids up
    to it, in order. *)
Theorem one_request_per_distinct_id (cats : list Category) (cid : string) :
  (requests_of (search_url cid) (trace (fetch_listings w cats)) ≤ 1)%nat ∧
  (cid ∉ map category_id cats →
   requests_of (search_url cid) (trace (fetch_listings w cats)) = 0) ∧
  (∀ srs,
     outcome (fetch_listings w cats) = Ok srs →
     NoDup (map sr_category_id srs) ∧
     (cid ∈ map category_id cats →
      requests_of (search_url cid) (trace (fetch_listings w cats)) = 1 ∧
      length (filter (λ b, sr_category_id b = cid) srs) = 1)) ∧
  (∀ ids1 failing ids2,
     set_iter (set_order w) (map category_id cats) = ids1 ++ failing :: ids2 →
     listing_fetch_fails w failing = true →
     (∃ e, outcome (fetch_listings w cats) = Err e) ∧
     (cid ∈ ids2 →
      requests_of (search_url cid) (trace (fetch_listings w cats)) = 0) ∧
     (Forall (λ x, listing_fetch_fails w x = false) ids1 →
      trace (fetch_listings w cats)
      = Log INFO "4. Calling Search API for each MeLi category" []
        :: map (λ x, HttpGet (search_url x)) (ids1 ++ [failing]))).
Proof.
  set (ids := set_iter (set_order w) (map category_id cats)).
  assert (requests_of (search_url cid) (trace (fetch_listings w cats))
          = if decide (cid ∈ rounds (fetch w) ids) then 1 else 0) as Hcount.
  { rewrite fetch_listings_trace. fold ids. unfold requests_of.
    rewrite filter_cons_False by discriminate.
    fold (requests_of (search_url cid)
            (map (λ cid, HttpGet (search_url cid)) (rounds (fetch w) ids))).
    rewrite requests_of_fetches. apply count_NoDup.
    eapply sublist_NoDup; [apply set_iter_NoDup|apply rounds_sublist]. }
  split; [|split; [|split]].
  - rewrite Hcount. case_decide; lia.
  - intros Hout. rewrite Hcount. rewrite decide_False; [done|].
    intros Hin. apply Hout. apply (set_iter_elem (set_order w)).
    eapply elem_of_sublist; [exact Hin|apply rounds_sublist].
  - intros srs Hsrs. pose proof (fetched_ids w _ _ Hsrs) as Hids. fold ids in Hids.
    split; [rewrite Hids; apply set_iter_NoDup|].
    intros Hin. split.
    + rewrite Hcount. rewrite fetch_listings_outcome in Hsrs. fold ids in Hsrs.
      rewrite (rounds_ok _ _ _ Hsrs). rewrite decide_True; [done|].
      by apply set_iter_elem.
    + apply (set_iter_elem (set_order w)) in Hin. fold ids in Hin.
      rewrite <- Hids in Hin. apply list_elem_of_fmap in Hin as (batch & -> & Hb).
      destruct (batch_inv w _ _ _ Hsrs Hb) as [_ ->]. reflexivity.
  - intros ids1 failing ids2 Hids Hfail.
    pose proof (set_iter_NoDup (set_order w) (map category_id cats)) as Hnd.
    fold ids in Hnd. rewrite Hids in Hnd.
    unfold listing_fetch_fails in Hfail.
    destruct (fetch w failing) as [|e] eqn:Hf; [discriminate|].
    split; [|split].
    + destruct (collect_err (fetch w) ids failing e) as (x & e' & _ & _ & Hcol);
        [rewrite Hids; apply elem_of_app; right; left|done|].
      exists e'. by rewrite fetch_listings_outcome.
    + intros Hin. rewrite Hcount, Hids. rewrite decide_False; [done|].
      intros Hr.
      pose proof (elem_of_sublist _ _ _ Hr
                    (rounds_stop (fetch w) ids1 failing ids2 e Hf)) as Hpre.
      apply NoDup_app in Hnd as (_ & Hdisj & Hnd2).
      apply NoDup_cons in Hnd2 as [Hnot _].
      apply elem_of_app in Hpre as [Hpre|Hpre%list_elem_of_singleton].
      * apply (Hdisj cid Hpre). by right.
      * by subst.
    + intros Hok. rewrite fetch_listings_trace. fold ids. rewrite Hids.
      rewrite (rounds_first (fetch w) ids1 failing ids2 e); [done| |done].
      eapply Forall_impl; [exact Hok|]. intros x Hx. by apply fails_iff.
Qed.

End Failures.

Lemma carousel_count_witness :
  (∃ resp,
     outcome (chat Market.world "necesito equipar mi cocina") = Ok resp ∧
     length (r_carousels resp) = length [Market.blenders] ∧
     map carousel_category (r_carousels resp) = [Market.blenders]) ∧
  (∃ ids1 cid ids2 e,
     set_iter (set_order Market.world)
       (map category_id [Market.blenders; Market.brooms])
     = ids1 ++ cid :: ids2 ∧
     Forall (λ x, listing_fetch_fails Market.world x = false) ids1 ∧
     outcome (fetch_step Market.world [] cid) = Err e ∧
     outcome (chat Market.world "quiero barrer") = Err e).
Proof.
  split.
  - apply (carousel_count Market.world "necesito equipar mi cocina"
             Market.kitchen_plan [Market.blenders]).
    + reflexivity.
    + vm_compute. reflexivity.
    + constructor; [vm_compute; reflexivity|constructor].
  - apply (carousel_count Market.world "quiero barrer"
             Market.sweeping_plan [Market.blenders; Market.brooms]).
    + reflexivity.
    + vm_compute. reflexivity.
    + apply Exists_cons_tl, Exists_cons_hd. vm_compute. reflexivity.
Defined.

Lemma one_request_per_distinct_id_witness :
  (∃ e, outcome (fetch_listings Market.world
                   [Market.vacuum_cleaners; Market.brooms]) = Err e) ∧
  requests_of (search_url "789")
    (trace (fetch_listings Market.world [Market.vacuum_cleaners; Market.brooms]))
  = 0 ∧
  trace (fetch_listings Market.world [Market.vacuum_cleaners; Market.brooms])
  = Log INFO "4. Calling Search API for each MeLi category" []
    :: map (λ x, HttpGet (search_url x)) ([] ++ ["456"]).
Proof.
  destruct (one_request_per_distinct_id Market.world
              [Market.vacuum_cleaners; Market.brooms] "789")
    as (_ & _ & _ & Hstop).
  destruct (Hstop [] "456" ["789"]) as (Herr & Hnone & Htrace).
  - vm_compute. reflexivity.
  - vm_compute. reflexivity.
  - split; [exact Herr|]. split; [apply Hnone; left|apply Htrace; constructor].
Defined.

Lemma failed_fetch_aborts_witness :
  ∃ cid e t,
    cid ∈ map category_id [Market.blenders; Market.vacuum_cleaners] ∧
    outcome (fetch_step Market.world [] cid) = Err e ∧
    outcome (chat Market.world "quiero limpiar la casa") = Err e ∧
    trace (chat Market.world "quiero limpiar la casa")
    = t ++ [HttpGet (search_url cid)].
Proof.
  apply (failed_fetch_aborts Market.world "quiero limpiar la casa"
           Market.cleaning_plan [Market.blenders; Market.vacuum_cleaners]
           Market.vacuum_cleaners).
  - reflexivity.
  - vm_compute. reflexivity.
  - right. left.
  - vm_compute. reflexivity.
Defined.

(** In whatever order the set of ids is gone through, a request whose
    plan resolves to a category with a failing listing search ends with
    an exception. *)
Lemma sweeping_aborts (order : SetOrder) :
  ∃ e, outcome (chat (Market.world_with order) "quiero barrer") = Err e.
Proof.
  destruct (aborts (Market.world_with order) "quiero barrer" Market.sweeping_plan
              [Market.blenders; Market.brooms] Market.brooms)
    as (cid & e & _ & _ & He); [reflexivity|vm_compute; reflexivity|
                                 right; left|vm_compute; reflexivity|].
  by exists e.
Qed.

Lemma cleaning_aborts (order : SetOrder) :
  ∃ e, outcome (chat (Market.world_with order) "quiero limpiar la casa") = Err e.
Proof.
  destruct (aborts (Market.world_with order) "quiero limpiar la casa"
              Market.cleaning_plan
              [Market.blenders; Market.vacuum_cleaners] Market.vacuum_cleaners)
    as (cid & e & _ & _ & He); [reflexivity|vm_compute; reflexivity|
                                 right; left|vm_compute; reflexivity|].
  by exists e.
Qed.

(** Two ids whose searches both fail: whichever comes first, step 4 ends
    there. *)
Lemma both_down (order : SetOrder) :
  ∃ e, outcome (fetch_listings (Market.world_with order)
                  [Market.vacuum_cleaners; Market.brooms]) = Err e.
Proof.
  rewrite fetch_listings_outcome.
  destruct (collect_err (fetch (Market.world_with order))
              (set_iter order (map category_id
                                 [Market.vacuum_cleaners; Market.brooms]))
              "456" JSONDecodeError) as (cid & e & _ & _ & He).
  - apply set_iter_elem. left.
  - vm_compute. reflexivity.
  - by exists e.
Qed.

(** The plan resolves to categories 123 and 789; the search for 789 gets
    no reply. The claim promises a response with one carousel: there is
    no response. *)
Lemma no_response_after_failed_fetch :
  outcome (match_categories Market.world Market.sweeping_plan)
    = Ok [Market.blenders; Market.brooms] ∧
  listing_fetch_fails Market.world "123" = false ∧
  listing_fetch_fails Market.world "789" = true ∧
  outcome (chat Market.world "quiero barrer") = Err ConnectionError ∧
  ¬ carousel_count_claim Market.world "quiero barrer".
Proof.
  split; [vm_compute; reflexivity|]. split; [vm_compute; reflexivity|].
  split; [vm_compute; reflexivity|]. split; [vm_compute; reflexivity|].
  intros H.
  destruct (H Market.sweeping_plan [Market.blenders; Market.brooms])
    as (resp & Hresp & _); [reflexivity|vm_compute; reflexivity|].
  destruct (sweeping_aborts last_occurrence_order) as [e He].
  unfold Market.world in Hresp. congruence.
Qed.

(** The plan resolves to categories 123 and 456; the search for 456
    answers with a body that is not JSON. The carousel of category 123 is
    not returned: the request ends with the decoding exception. *)
Lemma malformed_body_aborts_request :
  outcome (match_categories Market.world Market.cleaning_plan)
    = Ok [Market.blenders; Market.vacuum_cleaners] ∧
  listing_fetch_fails Market.world "123" = false ∧
  listing_fetch_fails Market.world "456" = true ∧
  outcome (chat Market.world "quiero limpiar la casa") = Err JSONDecodeError ∧
  ¬ skip_and_continue_claim Market.world "quiero limpiar la casa".
Proof.
  split; [vm_compute; reflexivity|]. split; [vm_compute; reflexivity|].
  split; [vm_compute; reflexivity|]. split; [vm_compute; reflexivity|].
  intros H.
  destruct (H Market.cleaning_plan [Market.blenders; Market.vacuum_cleaners])
    as (resp & Hresp & _); [reflexivity|vm_compute; reflexivity|].
  destruct (cleaning_aborts last_occurrence_order) as [e He].
  unfold Market.world in Hresp. congruence.
Qed.

(** Two categories with ids 456 and 789, both searches failing: the
    first request ends step 4, and the other id is never requested. Here
    456 comes first; were it 789, 456 would be the one left out. *)
Lemma later_id_not_requested :
  outcome (match_categories Market.world
             {| message := "Hola"; categories := [Market.aspiradoras; Market.escobas] |})
    = Ok [Market.vacuum_cleaners; Market.brooms] ∧
  trace (fetch_listings Market.world [Market.vacuum_cleaners; Market.brooms])
    = [Log INFO "4. Calling Search API for each MeLi category" [];
       HttpGet (search_url "456")] ∧
  requests_of (search_url "789")
    (trace (fetch_listings Market.world [Market.vacuum_cleaners; Market.brooms]))
    = 0 ∧
  ¬ fetched_once_claim Market.world [Market.vacuum_cleaners; Market.brooms].
Proof.
  split; [vm_compute; reflexivity|].
  split; [vm_compute; reflexivity|]. split; [vm_compute; reflexivity|].
  intros H. destruct (H "789") as (_ & srs & Hsrs & _); [right; left|].
  destruct (both_down last_occurrence_order) as [e He].
  unfold Market.world in Hsrs. congruence.
Qed.

(** A completed step 4: two proposals resolved to the same id, one
    request. *)
Example duplicate_ids_one_request :
  trace (fetch_listings Market.world [Market.blenders; Market.blenders])
    = [Log INFO "4. Calling Search API for each MeLi category" [];
       HttpGet (search_url "123")] ∧
  outcome (fetch_listings Market.world [Market.blenders; Market.blenders])
    = Ok [ {| sr_category_id := "123"; sr_results := Market.blenders_listings |} ].
Proof. split; vm_compute; reflexivity. Qed.

(** ** Splitting and replacing *)

Section Split.

Variable sep : ascii.

Lemma split_cons s : ∃ piece pieces, PyStr.split sep s = piece :: pieces.
Proof.
  destruct s as [|c s]; cbn; [eauto|].
  destruct (Ascii.eqb c sep); [eauto|]. destruct (PyStr.split sep s); eauto.
Qed.

Lemma count_char_hit s : count_char sep (String sep s) = S (count_char sep s).
Proof.
  unfold count_char; cbn [list_ascii_of_string]. by rewrite filter_cons_True.
Qed.

Lemma count_char_miss c s :
  c ≠ sep → count_char sep (String c s) = count_char sep s.
Proof.
  intros. unfold count_char; cbn [list_ascii_of_string].
  by rewrite filter_cons_False.
Qed.

(** X1: [s.split(sep)] cuts [s] at every separator and nowhere else: the
    pieces joined by the separator give [s] back, there is one piece more
    than there are separators in [s], and no piece holds a separator. *)
Theorem split_spec (s : string) :
  String.concat (String sep EmptyString) (PyStr.split sep s) = s ∧
  length (PyStr.split sep s) = S (count_char sep s) ∧
  Forall (λ piece, count_char sep piece = 0) (PyStr.split sep s).
Proof.
  induction s as [|c s (IH1 & IH2 & IH3)]; cbn [PyStr.split].
  - split; [done|]. split; [done|]. by constructor.
  - destruct (split_cons s) as (piece & pieces & Hs). rewrite Hs in *.
    destruct (Ascii.eqb_spec c sep) as [->|Hne].
    + split; [|split].
      * rewrite <- IH1. reflexivity.
      * rewrite count_char_hit, <- IH2. reflexivity.
      * by constructor.
    + split; [|split].
      * rewrite <- IH1. destruct pieces; reflexivity.
      * rewrite count_char_miss by done. exact IH2.
      * apply Forall_cons in IH3 as [Hp Hps]. constructor; [|done].
        by rewrite count_char_miss.
Qed.

End Split.

Section Replace.

Lemma prefix_app old v : String.prefix old (old +:+ v) = true.
Proof.
  induction old as [|c old IH]; [by destruct v|].
  change (String c old +:+ v) with (String c (old +:+ v)).
  cbn [String.prefix]. destruct (ascii_dec c c); [exact IH|done].
Qed.

Lemma delete_from_skip old o v :
  PyStr.delete_from old (String.length o) (o +:+ v) = PyStr.delete_from old 0 v.
Proof.
  induction o as [|c o IH]; [done|].
  change (String c o +:+ v) with (String c (o +:+ v)).
  cbn [String.length PyStr.delete_from]. exact IH.
Qed.

Lemma delete_from_prefix c old v :
  PyStr.delete_from (String c old) 0 (String c old +:+ v)
  = PyStr.delete_from (String c old) 0 v.
Proof.
  change (String c old +:+ v) with (String c (old +:+ v)) at 1.
  cbn [PyStr.delete_from].
  change (String c (old +:+ v)) with (String c old +:+ v).
  rewrite prefix_app.
  replace (String.length (String c old) - 1) with (String.length old)
    by (cbn [String.length]; lia).
  apply delete_from_skip.
Qed.

Lemma delete_from_absent old s :
  occurs old s = false → PyStr.delete_from old 0 s = s.
Proof.
  induction s as [|c s IH]; [done|].
  cbn [occurs PyStr.delete_from]. intros [Hpre Hs]%orb_false_iff.
  by rewrite Hpre, IH.
Qed.

(** X2: a line that starts with the label and has it nowhere in what
    follows loses exactly the label. *)
Theorem label_stripped (label value : string) :
  label ≠ "" → occurs label value = false →
  PyStr.replace_with_empty label (label +:+ value) = value.
Proof.
  intros Hne Hno. destruct label as [|c label]; [done|].
  unfold PyStr.replace_with_empty.
  by rewrite delete_from_prefix, delete_from_absent.
Qed.

(** X3: a line that does not hold the label at all is taken as it is:
    the label is not required to be there. *)
Theorem unlabelled_line_kept (label line : string) :
  occurs label line = false → PyStr.replace_with_empty label line = line.
Proof.
  intros Hno. destruct label as [|c label]; [done|].
  unfold PyStr.replace_with_empty. by apply delete_from_absent.
Qed.

End Replace.

Lemma label_stripped_witness :
  PyStr.replace_with_empty "DOMAIN_ID: " ("DOMAIN_ID: " +:+ "MLA-BLENDERS")
  = "MLA-BLENDERS".
Proof.
  apply (label_stripped "DOMAIN_ID: " "MLA-BLENDERS").
  - discriminate.
  - vm_compute. reflexivity.
Defined.

Lemma unlabelled_line_kept_witness :
  PyStr.replace_with_empty "DOMAIN_ID: " "Batidoras de mano" = "Batidoras de mano".
Proof.
  apply (unlabelled_line_kept "DOMAIN_ID: " "Batidoras de mano").
  vm_compute. reflexivity.
Defined.

(** ** What a request does to the outside *)

Section Calls.

Variable w : World.

Lemma queries_of_app t1 t2 : queries_of (t1 ++ t2) = queries_of t1 ++ queries_of t2.
Proof. apply omap_app. Qed.

Lemma urls_of_app t1 t2 : urls_of (t1 ++ t2) = urls_of t1 ++ urls_of t2.
Proof. apply omap_app. Qed.

Lemma plan_trace input :
  trace (plan w input)
  = [Log INFO "1. Building the prompt" [];
     Log INFO "2. Calling the chat and parsing the response" [];
     PlannerCall input].
Proof. unfold plan. by destruct (planner w input). Qed.

Lemma match_step_calls acc x :
  queries_of (trace (match_step w acc x)) = [x]
  ∧ urls_of (trace (match_step w acc x)) = [].
Proof.
  unfold match_step, match_try, try_except_IndexError, logging_warning.
  destruct (similarity_search_with_score w x) as [[|[doc s] rest]|e]; cbn.
  - done.
  - unfold index.
    destruct (_ !! 4); cbn; [|done].
    destruct (_ !! 5); cbn; [|done].
    by destruct (_ !! 7).
  - by destruct e.
Qed.

Lemma match_rounds_calls names :
  queries_of (concat (map (λ x, trace (match_step w [] x)) names)) = names
  ∧ urls_of (concat (map (λ x, trace (match_step w [] x)) names)) = [].
Proof.
  induction names as [|x names [IH1 IH2]]; [done|]. cbn [map concat].
  rewrite queries_of_app, urls_of_app, IH1, IH2.
  by destruct (match_step_calls [] x) as [-> ->].
Qed.

Lemma match_categories_calls rd :
  queries_of (trace (match_categories w rd))
  = rounds (resolve w) (map name (categories rd))
  ∧ urls_of (trace (match_categories w rd)) = [].
Proof.
  unfold match_categories. rewrite trace_bind.
  rewrite (for_each_trace _ (match_step_appends w)).
  change (λ x, outcome (match_step w [] x)) with (resolve w).
  change (outcome (logging_info "3. Matching with MeLi categories"))
    with (Ok tt : Result unit).
  cbv beta iota. rewrite queries_of_app, urls_of_app.
  by destruct (match_rounds_calls
                 (rounds (resolve w) (map name (categories rd)))) as [-> ->].
Qed.

Lemma gets_calls ids :
  queries_of (map (λ cid, HttpGet (search_url cid)) ids) = []
  ∧ urls_of (map (λ cid, HttpGet (search_url cid)) ids) = map search_url ids.
Proof.
  induction ids as [|cid ids [IH1 IH2]]; [done|]. split.
  - exact IH1.
  - change (search_url cid
            :: urls_of (map (λ cid, HttpGet (search_url cid)) ids)
            = search_url cid :: map search_url ids).
    by rewrite IH2.
Qed.

Lemma fetch_listings_calls cats :
  queries_of (trace (fetch_listings w cats)) = []
  ∧ urls_of (trace (fetch_listings w cats))
    = map search_url
        (rounds (fetch w) (set_iter (set_order w) (map category_id cats))).
Proof.
  rewrite fetch_listings_trace.
  exact (gets_calls
           (rounds (fetch w) (set_iter (set_order w) (map category_id cats)))).
Qed.

Lemma build_carousels_trace cats srs :
  trace (build_carousels cats srs) = [Log INFO "5. Building the carousels" []].
Proof.
  unfold build_carousels. rewrite trace_bind; cbn [outcome snd logging_info emit].
  rewrite (for_each_trace _ (build_step_appends srs)). cbn [trace fst].
  generalize (rounds (λ x, outcome (build_step srs [] x)) cats); intros l.
  induction l as [|c l IH]; [done|]. cbn [map concat].
  replace (trace (build_step srs [] c)) with (@nil event); [exact IH|].
  unfold build_step. by destruct (index _ 0).
Qed.

Lemma join_questions_trace rd drafts :
  trace (join_questions rd drafts)
  = [Log INFO "6. Joining carousels with category questions" []].
Proof.
  unfold join_questions. rewrite trace_bind; cbn [outcome snd logging_info emit].
  rewrite (for_each_trace _ (join_step_appends rd)). cbn [trace fst].
  generalize (rounds (λ x, outcome (join_step rd [] x)) drafts); intros l.
  induction l as [|d l IH]; [done|]. cbn [map concat].
  replace (trace (join_step rd [] d)) with (@nil event); [exact IH|].
  unfold join_step. by destruct (index _ 0).
Qed.

(** The calls of steps 3 to 6: the queries of step 3, then, when step 3
    completes, the requests of step 4. *)
Lemma pipeline_calls rd :
  queries_of (trace (pipeline w rd)) = rounds (resolve w) (map name (categories rd))
  ∧ urls_of (trace (pipeline w rd))
    = match outcome (match_categories w rd) with
      | Ok cats => map search_url
                     (rounds (fetch w)
                        (set_iter (set_order w) (map category_id cats)))
      | Err _ => []
      end.
Proof.
  unfold pipeline. rewrite trace_bind, queries_of_app, urls_of_app.
  destruct (match_categories_calls rd) as [-> ->].
  destruct (outcome (match_categories w rd)) as [cats|e];
    [|by rewrite app_nil_r].
  rewrite trace_bind, queries_of_app, urls_of_app.
  destruct (fetch_listings_calls cats) as [-> ->].
  destruct (outcome (fetch_listings w cats)) as [srs|e];
    [|by rewrite !app_nil_r].
  rewrite trace_bind, build_carousels_trace.
  destruct (outcome (build_carousels cats srs)) as [drafts|e];
    [|by rewrite !app_nil_r].
  rewrite trace_bind, join_questions_trace.
  destruct (outcome (join_questions rd drafts)) as [cs|e];
    by rewrite !app_nil_r.
Qed.

Lemma chat_calls input :
  queries_of (trace (chat w input))
  = match planner w input with
    | Ok rd => rounds (resolve w) (map name (categories rd))
    | Err _ => []
    end
  ∧ urls_of (trace (chat w input))
    = match planner w input with
      | Ok rd =>
          match outcome (match_categories w rd) with
          | Ok cats => map search_url
                         (rounds (fetch w)
                            (set_iter (set_order w) (map category_id cats)))
          | Err _ => []
          end
      | Err _ => []
      end.
Proof.
  unfold chat. rewrite trace_bind, queries_of_app, urls_of_app, plan_trace.
  rewrite plan_outcome. destruct (planner w input) as [rd|e]; [|done].
  cbn [mbind Result_bind]. by destruct (pipeline_calls rd) as [-> ->].
Qed.

End Calls.

(** ** From the descriptor to the response *)

Section Provenance.

Variable w : World.

Lemma strip_label c label value :
  occurs (String c label) value = false →
  PyStr.replace_with_empty (String c label) (String c label +:+ value) = value.
Proof.
  intros Hno. unfold PyStr.replace_with_empty.
  by rewrite delete_from_prefix, delete_from_absent.
Qed.

Lemma match_step_lines acc category doc s rest line4 line5 line7 :
  similarity_search_with_score w category = Ok ((doc, s) :: rest) →
  PyStr.split PyStr.LF (page_content doc) !! 4 = Some line4 →
  PyStr.split PyStr.LF (page_content doc) !! 5 = Some line5 →
  PyStr.split PyStr.LF (page_content doc) !! 7 = Some line7 →
  outcome (match_step w acc category) = Ok (acc ++ [
    {| category_raw := category;
       category_id := PyStr.replace_with_empty "CATEGORY_ID_L3: " line4;
       category_name := PyStr.replace_with_empty "CATEGORY_NAME_L3: " line5;
       domain_id := PyStr.replace_with_empty "DOMAIN_ID: " line7;
       similarity_score := s |} ]).
Proof.
  intros Hs H4 H5 H7.
  unfold match_step, match_try, try_except_IndexError, logging_warning.
  rewrite Hs; cbn. unfold index. rewrite H4; cbn. rewrite H5; cbn.
  rewrite H7; cbn. reflexivity.
Qed.

(** X4: for a first result whose descriptor has ["CATEGORY_ID_L3: "],
    ["CATEGORY_NAME_L3: "] and ["DOMAIN_ID: "] at the start of lines 4, 5
    and 7 (from 0), each followed by a value that does not hold its label,
    the round appends the category with exactly these three values, the
    proposed name and the returned score. *)
Theorem descriptor_decoded (acc : list Category) (category : string)
    (doc : Document) (s : float) (rest : list (Document * float))
    (cid cname dom : string) :
  similarity_search_with_score w category = Ok ((doc, s) :: rest) →
  PyStr.split PyStr.LF (page_content doc) !! 4
    = Some ("CATEGORY_ID_L3: " +:+ cid) →
  PyStr.split PyStr.LF (page_content doc) !! 5
    = Some ("CATEGORY_NAME_L3: " +:+ cname) →
  PyStr.split PyStr.LF (page_content doc) !! 7 = Some ("DOMAIN_ID: " +:+ dom) →
  occurs "CATEGORY_ID_L3: " cid = false →
  occurs "CATEGORY_NAME_L3: " cname = false →
  occurs "DOMAIN_ID: " dom = false →
  outcome (match_step w acc category) = Ok (acc ++ [
    {| category_raw := category;
       category_id := cid;
       category_name := cname;
       domain_id := dom;
       similarity_score := s |} ]).
Proof.
  intros Hs H4 H5 H7 Hcid Hcname Hdom.
  rewrite (match_step_lines _ _ _ _ _ _ _ _ Hs H4 H5 H7).
  by rewrite (strip_label _ _ _ Hcid), (strip_label _ _ _ Hcname),
    (strip_label _ _ _ Hdom).
Qed.

Lemma collect_resolve_sublist names cats :
  collect (resolve w) names = Ok cats →
  map category_raw cats `sublist_of` names.
Proof.
  revert cats; induction names as [|x names IH]; cbn; intros cats Hc.
  - by injection Hc as <-.
  - destruct (resolve w x) as [ys|e] eqn:Hr; cbn in Hc; [|discriminate].
    destruct (collect (resolve w) names) as [yss|e]; cbn in Hc; [|discriminate].
    injection Hc as <-. specialize (IH yss eq_refl).
    destruct (resolve_inv w _ _ Hr)
      as [->|(doc & s & rest & l4 & l5 & l7 & _ & _ & _ & _ & ->)]; cbn.
    + by apply sublist_cons.
    + by apply sublist_skip.
Qed.

(** X5: the resolved categories follow the plan: their raw names are the
    names of the proposals that were not dropped, in the order of the plan,
    a name proposed twice and resolved twice appearing twice. *)
Theorem resolved_in_plan_order (rd : BuyAssistantResponse) (cats : list Category) :
  outcome (match_categories w rd) = Ok cats →
  map category_raw cats `sublist_of` map name (categories rd).
Proof.
  rewrite match_categories_outcome. apply collect_resolve_sublist.
Qed.

(** X6: a response carries the message of the plan unchanged, and its
    carousels are, in order and one for one, the resolved categories:
    nothing is reordered, merged or capped between step 3 and the
    response. *)
Theorem response_follows_plan (input : string) (rd : BuyAssistantResponse)
    (cats : list Category) (resp : Response) :
  planner w input = Ok rd →
  outcome (match_categories w rd) = Ok cats →
  outcome (chat w input) = Ok resp →
  r_message resp = message rd ∧
  map carousel_category (r_carousels resp) = cats.
Proof.
  intros Hp Hcats
    (rd' & cats' & srs & drafts & Hp' & Hcats' & Hsrs & Hd & Hcs & Hmsg)%chat_ok_inv.
  assert (rd' = rd) as -> by congruence.
  assert (cats' = cats) as -> by congruence.
  split; [done|].
  destruct (assembly_ok w _ _ _ Hcats Hsrs) as (drafts' & cs & Hd' & Hcs' & Hmap).
  assert (drafts' = drafts) as -> by congruence.
  assert (cs = r_carousels resp) as -> by congruence.
  done.
Qed.

(** X7: the taxonomy fields of a carousel are read off the first result
    the vector store returns for the carousel's raw name: the score is
    that result's score, and the id, name and domain are lines 4, 5 and 7
    of its descriptor without their labels. *)
Theorem carousel_provenance (input : string) (resp : Response) (c : Carousel) :
  outcome (chat w input) = Ok resp → c ∈ r_carousels resp →
  ∃ doc rest line4 line5 line7,
    similarity_search_with_score w (c_category_raw c)
      = Ok ((doc, c_similarity_score c) :: rest) ∧
    PyStr.split PyStr.LF (page_content doc) !! 4 = Some line4 ∧
    PyStr.split PyStr.LF (page_content doc) !! 5 = Some line5 ∧
    PyStr.split PyStr.LF (page_content doc) !! 7 = Some line7 ∧
    c_category_id c = PyStr.replace_with_empty "CATEGORY_ID_L3: " line4 ∧
    c_category_name c = PyStr.replace_with_empty "CATEGORY_NAME_L3: " line5 ∧
    c_domain_id c = PyStr.replace_with_empty "DOMAIN_ID: " line7.
Proof.
  intros Hresp Hc.
  destruct (carousel_resolved w _ _ _ Hresp Hc) as (ys & Hys & Hin).
  destruct (resolve_inv w _ _ Hys)
    as [->|(doc & s & rest & l4 & l5 & l7 & Hs & H4 & H5 & H7 & ->)].
  - by apply elem_of_nil in Hin.
  - apply list_elem_of_singleton in Hin. unfold carousel_category in Hin.
    injection Hin as Hid Hname Hdom Hscore.
    exists doc, rest, l4, l5, l7. by rewrite Hscore.
Qed.

End Provenance.

Lemma descriptor_decoded_witness :
  outcome (match_step Market.world [] "Licuadoras") = Ok ([] ++ [
    {| category_raw := "Licuadoras";
       category_id := "123";
       category_name := "Licuadoras";
       domain_id := "MLA-BLENDERS";
       similarity_score := 0.25%float |} ]).
Proof.
  apply (descriptor_decoded Market.world [] "Licuadoras"
           (Market.descriptor "123" "Licuadoras" "MLA-BLENDERS") 0.25%float []
           "123" "Licuadoras" "MLA-BLENDERS");
    vm_compute; reflexivity.
Defined.

Lemma resolved_in_plan_order_witness :
  map category_raw [Market.blenders]
  `sublist_of` map name (categories Market.kitchen_plan).
Proof.
  apply (resolved_in_plan_order Market.world Market.kitchen_plan [Market.blenders]).
  vm_compute. reflexivity.
Defined.

Lemma response_follows_plan_witness :
  r_message Market.kitchen_response = message Market.kitchen_plan ∧
  map carousel_category (r_carousels Market.kitchen_response) = [Market.blenders].
Proof.
  apply (response_follows_plan Market.world "necesito equipar mi cocina"
           Market.kitchen_plan [Market.blenders] Market.kitchen_response).
  - reflexivity.
  - vm_compute. reflexivity.
  - vm_compute. reflexivity.
Defined.

Lemma carousel_provenance_witness :
  ∃ doc rest line4 line5 line7,
    similarity_search_with_score Market.world
      (c_category_raw Market.blenders_carousel)
      = Ok ((doc, c_similarity_score Market.blenders_carousel) :: rest) ∧
    PyStr.split PyStr.LF (page_content doc) !! 4 = Some line4 ∧
    PyStr.split PyStr.LF (page_content doc) !! 5 = Some line5 ∧
    PyStr.split PyStr.LF (page_content doc) !! 7 = Some line7 ∧
    c_category_id Market.blenders_carousel
      = PyStr.replace_with_empty "CATEGORY_ID_L3: " line4 ∧
    c_category_name Market.blenders_carousel
      = PyStr.replace_with_empty "CATEGORY_NAME_L3: " line5 ∧
    c_domain_id Market.blenders_carousel
      = PyStr.replace_with_empty "DOMAIN_ID: " line7.
Proof.
  apply (carousel_provenance Market.world "necesito equipar mi cocina"
           Market.kitchen_response Market.blenders_carousel).
  - vm_compute. reflexivity.
  - left.
Defined.

(** ** Exceptions of the collaborators *)

Section Faults.

Variable w : World.

Lemma resolve_err_inv x e :
  resolve w x = Err e →
  similarity_search_with_score w x = Err e ∧ e ≠ IndexError.
Proof.
  unfold resolve, match_step, match_try, try_except_IndexError, logging_warning.
  destruct (similarity_search_with_score w x) as [[|[doc s] rest]|e']; cbn.
  - discriminate.
  - unfold index.
    destruct (_ !! 4); cbn; [|discriminate].
    destruct (_ !! 5); cbn; [|discriminate].
    destruct (_ !! 7); cbn; discriminate.
  - destruct e'; cbn; try discriminate; by intros [= <-].
Qed.

Lemma resolve_store_error x e :
  similarity_search_with_score w x = Err e → e ≠ IndexError →
  resolve w x = Err e.
Proof.
  intros Hs Hne.
  unfold resolve, match_step, match_try, try_except_IndexError, logging_warning.
  rewrite Hs; cbn. by destruct e.
Qed.

Lemma set_iter_nil (order : SetOrder) : set_iter order [] = [].
Proof.
  destruct (set_iter order []) as [|x l] eqn:Hl; [done|].
  assert (x ∈ set_iter order []) as Hx by (rewrite Hl; left).
  apply set_iter_elem in Hx. by apply elem_of_nil in Hx.
Qed.

Lemma map_result_fails {A B} (f : A → Result B) before x after e :
  Forall (λ a, ∃ b, f a = Ok b) before → f x = Err e →
  map_result f (before ++ x :: after) = Err e.
Proof.
  intros Hok Hx. induction Hok as [|a before [b Hb] _ IH]; cbn.
  - by rewrite Hx.
  - by rewrite Hb, IH.
Qed.

(** X8: when the language model's answer cannot be obtained or parsed,
    the request ends with that exception after its two log lines and the
    call: the vector store is not queried and nothing is requested. *)
Theorem planner_failure (input : string) (e : exn) :
  planner w input = Err e →
  chat w input
  = ([Log INFO "1. Building the prompt" [];
      Log INFO "2. Calling the chat and parsing the response" [];
      PlannerCall input], Err e).
Proof.
  intros Hp. unfold chat, plan. rewrite Hp. reflexivity.
Qed.

(** X9: only [IndexError] is caught in step 3: when the vector store
    raises another exception for a proposal, the request ends with an
    exception the store raised, and no listing is ever requested. *)
Theorem store_error_aborts (input : string) (rd : BuyAssistantResponse)
    (p : CategoryResponse) (e : exn) :
  planner w input = Ok rd → p ∈ categories rd →
  similarity_search_with_score w (name p) = Err e → e ≠ IndexError →
  ∃ q e',
    q ∈ categories rd ∧
    similarity_search_with_score w (name q) = Err e' ∧ e' ≠ IndexError ∧
    outcome (chat w input) = Err e' ∧
    urls_of (trace (chat w input)) = [].
Proof.
  intros Hp Hin Hs Hne.
  destruct (collect_err (resolve w) (map name (categories rd)) (name p) e)
    as (x & e' & Hx & Hr & Hcol).
  { apply list_elem_of_fmap. eauto. }
  { by apply resolve_store_error. }
  apply list_elem_of_fmap in Hx as (q & -> & Hq).
  destruct (resolve_err_inv _ _ Hr) as [Hs' Hne'].
  assert (outcome (match_categories w rd) = Err e') as Hm
    by by rewrite match_categories_outcome.
  exists q, e'. do 3 (split; [done|]). split.
  - by rewrite chat_outcome, Hp, Result_ok_bind, pipeline_outcome, Hm.
  - destruct (chat_calls w input) as [_ ->]. by rewrite Hp, Hm.
Qed.

(** X10: an [IndexError] that the vector store itself raises is caught
    like the one of an empty result: the round logs the warning and keeps
    the accumulated categories, and the request goes on as if the proposal
    were not in the plan. *)
Theorem store_index_error_swallowed (input msg : string)
    (l1 : list CategoryResponse) (p : CategoryResponse)
    (l2 : list CategoryResponse) :
  planner w input = Ok {| message := msg; categories := l1 ++ p :: l2 |} →
  similarity_search_with_score w (name p) = Err IndexError →
  (∀ acc, match_step w acc (name p)
          = ([SimilaritySearch (name p) 1;
              Log WARNING "Category not matched for:" [name p]], Ok acc)) ∧
  outcome (chat w input)
  = outcome (pipeline w {| message := msg; categories := l1 ++ l2 |}).
Proof.
  intros Hp Hs.
  assert (∀ acc, match_step w acc (name p)
                 = ([SimilaritySearch (name p) 1;
                     Log WARNING "Category not matched for:" [name p]], Ok acc))
    as Hround.
  { intros acc.
    unfold match_step, match_try, try_except_IndexError, logging_warning.
    by rewrite Hs. }
  split; [done|].
  rewrite chat_outcome, Hp, Result_ok_bind. apply dropped_proposal.
  unfold resolve. by rewrite Hround.
Qed.

(** X11: when no proposal resolves (an empty plan included), the response
    has the plan's message and no carousel, and nothing is requested from
    the listing search. *)
Theorem nothing_resolved (input : string) (rd : BuyAssistantResponse) :
  planner w input = Ok rd →
  outcome (match_categories w rd) = Ok [] →
  outcome (chat w input) = Ok {| r_message := message rd; r_carousels := [] |} ∧
  urls_of (trace (chat w input)) = [].
Proof.
  intros Hp Hm. split.
  - rewrite chat_outcome, Hp, Result_ok_bind, pipeline_outcome, Hm,
      Result_ok_bind, fetch_listings_outcome.
    cbn [map]. rewrite set_iter_nil. cbn [collect]. rewrite Result_ok_bind.
    rewrite build_carousels_outcome. cbn [collect]. rewrite Result_ok_bind.
    rewrite join_questions_outcome. reflexivity.
  - destruct (chat_calls w input) as [_ ->]. rewrite Hp, Hm.
    cbn [map]. by rewrite set_iter_nil.
Qed.

(** X12: one raw result without an ["id"] loses the whole batch: the
    round of step 4 ends with [KeyError('id')] whatever the results before
    and after it are. *)
Theorem listing_without_id_fails_batch (acc : list SearchResult) (cid : string)
    (body : json) (before : list json) (fields : list (string * json))
    (after : list json) :
  requests_get w (search_url cid) = Reply (Some body) →
  getitem body "results" = Ok (JArr (before ++ JObj fields :: after)) →
  Forall (λ r, ∃ l, to_listing r = Ok l) before →
  dict_get "id" fields = None →
  fetch_step w acc cid = ([HttpGet (search_url cid)], Err (KeyError "id")).
Proof.
  intros Hget Hres Hok Hid. unfold fetch_step, get. rewrite Hget; cbn.
  rewrite Hres; cbn.
  rewrite (map_result_fails to_listing before (JObj fields) after (KeyError "id"));
    [done|done|].
  unfold to_listing. by rewrite Hid.
Qed.

End Faults.

Lemma planner_failure_witness :
  chat Market.world "hola"
  = ([Log INFO "1. Building the prompt" [];
      Log INFO "2. Calling the chat and parsing the response" [];
      PlannerCall "hola"], Err (ExternalError "OutputParserException")).
Proof.
  apply (planner_failure Market.world "hola" (ExternalError "OutputParserException")).
  reflexivity.
Defined.

Lemma store_error_aborts_witness :
  ∃ q e',
    q ∈ categories Faulty.dishes_plan ∧
    similarity_search_with_score Faulty.world (name q) = Err e' ∧
    e' ≠ IndexError ∧
    outcome (chat Faulty.world "necesito vajilla") = Err e' ∧
    urls_of (trace (chat Faulty.world "necesito vajilla")) = [].
Proof.
  apply (store_error_aborts Faulty.world "necesito vajilla" Faulty.dishes_plan
           Faulty.vajilla (ExternalError "Timeout")).
  - reflexivity.
  - right. left.
  - reflexivity.
  - discriminate.
Defined.

Lemma store_index_error_swallowed_witness :
  (∀ acc, match_step Faulty.world acc (name Faulty.sartenes)
          = ([SimilaritySearch (name Faulty.sartenes) 1;
              Log WARNING "Category not matched for:" [name Faulty.sartenes]],
             Ok acc)) ∧
  outcome (chat Faulty.world "necesito sartenes")
  = outcome (pipeline Faulty.world
               {| message := "Hola, te ayudo con las sartenes";
                  categories := [Market.licuadoras] ++ [] |}).
Proof.
  apply (store_index_error_swallowed Faulty.world "necesito sartenes"
           "Hola, te ayudo con las sartenes" [Market.licuadoras]
           Faulty.sartenes []).
  - reflexivity.
  - reflexivity.
Defined.

Lemma nothing_resolved_witness :
  outcome (chat Faulty.world "necesito ollas")
  = Ok {| r_message := message Faulty.pans_plan; r_carousels := [] |} ∧
  urls_of (trace (chat Faulty.world "necesito ollas")) = [].
Proof.
  apply (nothing_resolved Faulty.world "necesito ollas" Faulty.pans_plan).
  - reflexivity.
  - vm_compute. reflexivity.
Defined.

Lemma listing_without_id_fails_batch_witness :
  fetch_step Faulty.world [] "321"
  = ([HttpGet (search_url "321")], Err (KeyError "id")).
Proof.
  apply (listing_without_id_fails_batch Faulty.world [] "321" Faulty.broken_page
           [Market.raw "MLA1" "MLA-BLENDERS"]
           [("title", JStr "Sin identificador")]
           [Market.raw "MLA3" "MLA-BLENDERS"]).
  - reflexivity.
  - reflexivity.
  - constructor; [|constructor]. eexists. vm_compute. reflexivity.
  - reflexivity.
Defined.

(** ** The order and the number of calls *)

Section Budget.

Variable w : World.

(** X13: a request that returns a response has queried the vector store
    exactly once per proposal, in the order of the plan and without
    merging equal names, and has then requested exactly the URLs of the
    distinct resolved ids, in the iteration order of their set. *)
Theorem completed_calls (input : string) (rd : BuyAssistantResponse)
    (cats : list Category) (resp : Response) :
  planner w input = Ok rd →
  outcome (match_categories w rd) = Ok cats →
  outcome (chat w input) = Ok resp →
  queries_of (trace (chat w input)) = map name (categories rd) ∧
  urls_of (trace (chat w input))
  = map search_url (set_iter (set_order w) (map category_id cats)).
Proof.
  intros Hp Hcats
    (rd' & cats' & srs & _ & Hp' & Hcats' & Hsrs & _)%chat_ok_inv.
  assert (rd' = rd) as -> by congruence.
  assert (cats' = cats) as -> by congruence.
  destruct (chat_calls w input) as [-> ->]. rewrite Hp, Hcats.
  rewrite match_categories_outcome in Hcats.
  rewrite fetch_listings_outcome in Hsrs.
  by rewrite (rounds_ok _ _ _ Hcats), (rounds_ok _ _ _ Hsrs).
Qed.

(** X14: the steps do not interleave: in every run, completed or not,
    all queries to the vector store come before the first listing
    request. *)
Theorem searches_before_requests (input : string) :
  ∃ t1 t2,
    trace (chat w input) = t1 ++ t2 ∧ urls_of t1 = [] ∧ queries_of t2 = [].
Proof.
  unfold chat. rewrite trace_bind, plan_outcome, plan_trace.
  destruct (planner w input) as [rd|e]; cbn [mbind Result_bind].
  - unfold pipeline. rewrite trace_bind.
    set (t2 := match outcome (match_categories w rd) with
               | Ok a => trace _ | Err _ => [] end).
    eexists (_ ++ trace (match_categories w rd)), t2.
    split; [by rewrite <- app_assoc|]. split.
    + rewrite urls_of_app. by destruct (match_categories_calls w rd) as [_ ->].
    + destruct (pipeline_calls w rd) as [Hq _]. unfold pipeline in Hq.
      rewrite trace_bind, queries_of_app in Hq. fold t2 in Hq.
      destruct (match_categories_calls w rd) as [Hm _]. rewrite Hm in Hq.
      apply (app_inv_head (rounds (resolve w) (map name (categories rd)))).
      by rewrite app_nil_r.
  - eexists _, []. split; [done|]. done.
Qed.

(** X15: a request never asks more than it was proposed: the listing
    requests are at most as many as the queries to the vector store, and
    these at most as many as the proposals of the plan. *)
Theorem call_budget (input : string) (rd : BuyAssistantResponse) :
  planner w input = Ok rd →
  (length (urls_of (trace (chat w input)))
   ≤ length (queries_of (trace (chat w input))))%nat ∧
  (length (queries_of (trace (chat w input))) ≤ length (categories rd))%nat.
Proof.
  intros Hp. destruct (chat_calls w input) as [-> ->]. rewrite Hp.
  split.
  - destruct (outcome (match_categories w rd)) as [cats|e] eqn:Hm;
      [|cbn; lia].
    rewrite match_categories_outcome in Hm.
    rewrite (rounds_ok _ _ _ Hm), (length_map search_url).
    etrans; [apply sublist_length, rounds_sublist|].
    etrans; [|apply sublist_length, (collect_resolve_sublist w _ _ Hm)].
    rewrite (length_map category_raw), <- (length_map category_id cats).
    apply submseteq_length, NoDup_submseteq; [apply set_iter_NoDup|].
    intros x. apply set_iter_elem.
  - etrans; [apply sublist_length, rounds_sublist|]. by rewrite length_map.
Qed.

(** X16: when a name is proposed more than once, every carousel with
    that raw name has the questions of the first proposal of that name in
    the plan: the questions of a later proposal of the same name are not
    used for it. *)
Theorem first_proposal_questions (input msg : string)
    (l1 : list CategoryResponse) (p1 : CategoryResponse)
    (l2 : list CategoryResponse) (resp : Response) (c : Carousel) :
  planner w input = Ok {| message := msg; categories := l1 ++ p1 :: l2 |} →
  name p1 ∉ map name l1 →
  outcome (chat w input) = Ok resp → c ∈ r_carousels resp →
  c_category_raw c = name p1 →
  c_questions c = questions p1 ∧
  (∀ p2, p2 ∈ l2 → name p2 = name p1 → questions p2 ≠ questions p1 →
         c_questions c ≠ questions p2).
Proof.
  intros Hp Hfirst
    (rd & cats & srs & drafts & Hp' & _ & _ & Hd & Hcs & _)%chat_ok_inv Hc Hraw.
  assert (rd = {| message := msg; categories := l1 ++ p1 :: l2 |}) as ->
    by congruence.
  destruct (carousels_inv _ _ _ _ _ _ Hd Hcs Hc)
    as (_ & p & _ & _ & _ & Hlook & Hq).
  cbn [categories] in Hlook. rewrite Hraw, filter_app in Hlook.
  rewrite (filter_none (λ x, name x = name p1) l1) in Hlook.
  - rewrite filter_cons_True in Hlook by done. injection Hlook as <-.
    split; [done|]. intros p2 _ _ Hne. by rewrite Hq.
  - intros y Hy Heq. apply Hfirst. rewrite <- Heq.
    apply list_elem_of_fmap. eauto.
Qed.

(** X17: carousels with the same category id and the same domain id show
    the same items: both read the one batch fetched for that id. *)
Theorem same_category_same_items (input : string) (resp : Response)
    (c1 c2 : Carousel) :
  outcome (chat w input) = Ok resp →
  c1 ∈ r_carousels resp → c2 ∈ r_carousels resp →
  c_category_id c1 = c_category_id c2 → c_domain_id c1 = c_domain_id c2 →
  c_items c1 = c_items c2.
Proof.
  intros (rd & cats & srs & drafts & _ & _ & _ & Hd & Hcs & _)%chat_ok_inv
    H1 H2 Hid Hdom.
  destruct (carousels_inv _ _ _ _ _ _ Hd Hcs H1)
    as (b1 & _ & _ & Hb1 & -> & _).
  destruct (carousels_inv _ _ _ _ _ _ Hd Hcs H2)
    as (b2 & _ & _ & Hb2 & -> & _).
  rewrite Hid in Hb1. rewrite Hdom. congruence.
Qed.

End Budget.

Example twice_run :
  outcome (chat Faulty.world "dos licuadoras") = Ok
    {| r_message := "Hola, te ayudo con las licuadoras";
       r_carousels := [Market.blenders_carousel; Market.blenders_carousel] |}.
Proof. vm_compute. reflexivity. Qed.

Lemma completed_calls_witness :
  queries_of (trace (chat Faulty.world "dos licuadoras"))
  = map name (categories Faulty.twice_plan) ∧
  urls_of (trace (chat Faulty.world "dos licuadoras"))
  = map search_url
      (set_iter (set_order Faulty.world)
         (map category_id [Market.blenders; Market.blenders])).
Proof.
  apply (completed_calls Faulty.world "dos licuadoras" Faulty.twice_plan
           [Market.blenders; Market.blenders]
           {| r_message := "Hola, te ayudo con las licuadoras";
              r_carousels := [Market.blenders_carousel;
                              Market.blenders_carousel] |}).
  - reflexivity.
  - vm_compute. reflexivity.
  - vm_compute. reflexivity.
Defined.

Lemma call_budget_witness :
  (length (urls_of (trace (chat Market.world "necesito equipar mi cocina")))
   ≤ length (queries_of (trace (chat Market.world "necesito equipar mi cocina"))))%nat ∧
  (length (queries_of (trace (chat Market.world "necesito equipar mi cocina")))
   ≤ length (categories Market.kitchen_plan))%nat.
Proof.
  apply (call_budget Market.world "necesito equipar mi cocina" Market.kitchen_plan).
  reflexivity.
Defined.

Lemma first_proposal_questions_witness :
  c_questions Market.blenders_carousel = questions Market.licuadoras ∧
  c_questions Market.blenders_carousel ≠ ["Es silenciosa?"].
Proof.
  destruct (first_proposal_questions Faulty.world "dos licuadoras"
              "Hola, te ayudo con las licuadoras" [] Market.licuadoras
              [ {| name := "Licuadoras"; questions := ["Es silenciosa?"] |} ]
              {| r_message := "Hola, te ayudo con las licuadoras";
                 r_carousels := [Market.blenders_carousel;
                                 Market.blenders_carousel] |}
              Market.blenders_carousel) as [Hfirst Hlater].
  - reflexivity.
  - apply not_elem_of_nil.
  - vm_compute. reflexivity.
  - right. left.
  - reflexivity.
  - split; [exact Hfirst|].
    apply (Hlater {| name := "Licuadoras"; questions := ["Es silenciosa?"] |});
      [left|reflexivity|discriminate].
Defined.

(** Two names resolved to one category: the two carousels differ in raw
    name, score and questions, and show the same items. *)
Lemma same_category_same_items_witness :
  c_items Market.blenders_carousel = c_items Pantry.jug_blenders_carousel.
Proof.
  apply (same_category_same_items Pantry.world "licuadora, olla y vaso"
           Pantry.pantry_response
           Market.blenders_carousel Pantry.jug_blenders_carousel).
  - vm_compute. reflexivity.
  - left.
  - right. left.
  - reflexivity.
  - reflexivity.
Defined.
